(** * Main.py: the query dispatcher of the Kubernetes assistant

    A shallow embedding of [src/Main.py] and the properties of its
    classify / extract / dispatch pipeline.

    - Python [str] values are [string]s; a character is a code point below
      256 and the character classes are CPython's for those code points.
    - Calls that leave the process (the completion service, the cluster
      API, the inbound request) are read from an explicit [world]; every
      such call is recorded in a trace, so that "no gateway call" is a
      statement about the trace.
    - Python exceptions are values of [exn]; a computation either returns
      or raises, and [try_catch] is [try: ... except Exception]. *)

From Stdlib Require Import String Ascii List Bool Arith NArith ZArith Lia.
From Stdlib Require Import DecimalString.
Import ListNotations.

Open Scope list_scope.
Open Scope string_scope.

Set Implicit Arguments.

(* ================================================================== *)
(** * Strings *)

Module Str.

(** The double quote and the line feed, which string literals here avoid. *)
Definition dq : string := String "034"%char "".
Definition nl : string := String "010"%char "".

(** Code point of a character. *)
Definition code (c : ascii) : N := N_of_ascii c.

Definition in_range (lo hi : N) (c : ascii) : bool :=
  (lo <=? code c)%N && (code c <=? hi)%N.

(** [str.isspace] / the class [\s] of [re], for code points below 256:
    TAB..CR, FS..US and the space, NEL (0x85) and NBSP (0xA0). *)
Definition is_space (c : ascii) : bool :=
  in_range 9 13 c || in_range 28 32 c || in_range 133 133 c
  || in_range 160 160 c.

(** The class [\d] of [re]: the decimal digits. *)
Definition is_digit (c : ascii) : bool := in_range 48 57 c.

(** [str.isalnum] for code points below 256. *)
Definition is_alnum (c : ascii) : bool :=
  in_range 48 57 c || in_range 65 90 c || in_range 97 122 c
  || in_range 170 170 c || in_range 178 179 c || in_range 181 181 c
  || in_range 185 186 c || in_range 188 190 c || in_range 192 214 c
  || in_range 216 246 c || in_range 248 255 c.

(** The class [\w] of [re]: alphanumerics and the underscore. *)
Definition is_word (c : ascii) : bool := is_alnum c || Ascii.eqb c "_".

Fixpoint take_while (p : ascii -> bool) (s : string) : string :=
  match s with
  | String c s' => if p c then String c (take_while p s') else ""
  | "" => ""
  end.

Fixpoint drop_while (p : ascii -> bool) (s : string) : string :=
  match s with
  | String c s' => if p c then drop_while p s' else s
  | "" => ""
  end.

Fixpoint all_chars (p : ascii -> bool) (s : string) : bool :=
  match s with
  | String c s' => p c && all_chars p s'
  | "" => true
  end.

(** The first character, if any, satisfies [p]. *)
Definition starts_with_char (p : ascii -> bool) (s : string) : bool :=
  match s with
  | String c _ => p c
  | "" => false
  end.

(** [s.startswith(p)], returning what follows the prefix. *)
Fixpoint strip_prefix (p s : string) : option string :=
  match p with
  | "" => Some s
  | String a p' =>
      match s with
      | String b s' => if Ascii.eqb a b then strip_prefix p' s' else None
      | "" => None
      end
  end.

(** [needle in hay] on Python strings. *)
Fixpoint contains (needle hay : string) : bool :=
  match strip_prefix needle hay with
  | Some _ => true
  | None =>
      match hay with
      | String _ hay' => contains needle hay'
      | "" => false
      end
  end.

(** [s.lstrip()], [s.rstrip()] and [s.strip()] without argument. *)
Definition lstrip (s : string) : string := drop_while is_space s.

Fixpoint rstrip (s : string) : string :=
  match s with
  | String c s' =>
      match rstrip s' with
      | "" => if is_space c then "" else String c ""
      | r => String c r
      end
  | "" => ""
  end.

Definition strip (s : string) : string := rstrip (lstrip s).

(** [str(n)] for a non-negative [int]. *)
Definition of_nat (n : nat) : string := NilEmpty.string_of_uint (Nat.to_uint n).

(** [s] occurs in [t] as a contiguous substring. *)
Definition Substring (s t : string) : Prop :=
  exists a b, t = a ++ s ++ b.

End Str.

Import Str.

(* ================================================================== *)
(** * The fragment of [re] used by the two patterns of [process_query] *)

Module Re.

(** Pattern syntax: a literal character, sequencing,
    the greedy [?] and the greedy [+] over a class, and the one capture
    group. Both patterns of the source are of this shape. *)
Inductive regex : Type :=
| Lit (c : ascii)
| Seq (r1 r2 : regex)
| Opt (r : regex)
| PlusClass (p : ascii -> bool)
| Group (r : regex).

(** A literal word, character by character, followed by [r]. *)
Fixpoint lits (w : string) (r : regex) : regex :=
  match w with
  | String c w' => Seq (Lit c) (lits w' r)
  | "" => r
  end.

(** What a sub-pattern consumed, given the text before and after it. *)
Definition consumed (before after : string) : string :=
  substring 0 (String.length before - String.length after) before.

Section Matcher.
Variable X : Type.

(** A continuation gets the rest of the text and the capture so far. *)
Definition cont : Type := string -> option string -> option X.

(** Greedy [p+]: take one character of the class, then as many more as
    possible, giving characters back one at a time when what follows
    fails. *)
Fixpoint plus_class (p : ascii -> bool) (s : string) (cap : option string)
    (k : cont) : option X :=
  match s with
  | String c s' =>
      if p c then
        match plus_class p s' cap k with
        | Some r => Some r
        | None => k s' cap
        end
      else None
  | "" => None
  end.

(** The backtracking matcher, in continuation-passing style: the first
    alternative that leads to an overall match is the one kept. *)
Fixpoint rmatch (r : regex) (s : string) (cap : option string) (k : cont)
    : option X :=
  match r with
  | Lit c =>
      match s with
      | String d s' => if Ascii.eqb c d then k s' cap else None
      | "" => None
      end
  | Seq r1 r2 => rmatch r1 s cap (fun s1 cap1 => rmatch r2 s1 cap1 k)
  | Opt r1 =>
      match rmatch r1 s cap k with
      | Some x => Some x
      | None => k s cap
      end
  | PlusClass p => plus_class p s cap k
  | Group r1 => rmatch r1 s cap (fun s1 _ => k s1 (Some (consumed s s1)))
  end.
End Matcher.

(** A match anchored at the start of [s]: the rest of the text after the
    match and the text of group 1 (empty when the group took no part). *)
Definition finish : cont (string * string) :=
  fun rest cap => Some (rest, match cap with Some x => x | None => "" end).

Definition match_at (r : regex) (s : string) : option (string * string) :=
  rmatch r s None finish.

(** The scan of [re.findall]: positions from left to right; after a match
    the scan resumes at its end ([skip] counts the characters of the match
    still to pass over), after an empty match one character further. *)
Fixpoint findall_from (r : regex) (skip : nat) (s : string) : list string :=
  match skip with
  | S n =>
      match s with
      | String _ s' => findall_from r n s'
      | "" => []
      end
  | O =>
      match match_at r s with
      | Some (rest, cap) =>
          cap ::
          match s with
          | String _ s' =>
              findall_from r
                (String.length s - String.length rest - 1) s'
          | "" => []
          end
      | None =>
          match s with
          | String _ s' => findall_from r 0 s'
          | "" => []
          end
      end
  end.

(** [re.findall(pattern, s)] for a pattern with one group. *)
Definition findall (r : regex) (s : string) : list string :=
  findall_from r 0 s.

(** The class [[\w\-\d]]. *)
Definition name_char (c : ascii) : bool :=
  is_word c || Ascii.eqb c "-" || is_digit c.

(** [r"named\s+'?([\w\-\d]+)'?"] *)
Definition pod_pattern : regex :=
  lits "named"
    (Seq (PlusClass is_space)
       (Seq (Opt (Lit "'"))
          (Seq (Group (PlusClass name_char)) (Opt (Lit "'"))))).

(** [r"by\s+([\w\-\d]+)"] *)
Definition deployment_pattern : regex :=
  lits "by" (Seq (PlusClass is_space) (Group (PlusClass name_char))).

(** The same two matches computed directly, without backtracking: after
    the word and the whitespace, step over an opening quote (when the
    pattern has one), take the longest run of name characters, step over
    a closing quote. The result is the rest of the text and the run. *)
Definition after_quote (s : string) : string :=
  match s with
  | String c t => if Ascii.eqb "'" c then t else s
  | "" => s
  end.

Definition name_after (word : string) (quoted : bool) (s : string)
    : option (string * string) :=
  match strip_prefix word s with
  | Some s1 =>
      if starts_with_char is_space s1 then
        let s2 := drop_while is_space s1 in
        let s3 := if quoted then after_quote s2 else s2 in
        if starts_with_char name_char s3 then
          let s4 := drop_while name_char s3 in
          Some (if quoted then after_quote s4 else s4, take_while name_char s3)
        else None
      else None
  | None => None
  end.

(** The capture at the first position where [f] matches. *)
Fixpoint first_capture (f : string -> option (string * string)) (s : string)
    : option string :=
  match f s with
  | Some (_, x) => Some x
  | None =>
      match s with
      | String _ s' => first_capture f s'
      | "" => None
      end
  end.

End Re.


(* ================================================================== *)
(** * Python values, exceptions and effects *)

Module Py.

(** A value decoded from JSON: [None], [bool], [int], [float], [str],
    [list] and [dict] (a [dict] as the list of its items, keys distinct). *)
#[warnings="-register-all"] Inductive json : Type :=
| JNull
| JBool (b : bool)
| JInt (z : Z)
| JFloat (literal : string)
| JStr (s : string)
| JArr (items : list json)
| JObj (items : list (string * json)).

(** An instance of [Exception]: the cluster client's [ApiException] with
    its HTTP status, pydantic's [ValidationError] with its error list, or
    any other class; [text] is what [str(e)] gives. *)
Inductive exn : Type :=
| ApiException (status : option Z) (text : string)
| ValidationError (errors : json) (text : string)
| PyError (cls : string) (text : string).

Definition str_exn (e : exn) : string :=
  match e with
  | ApiException _ t => t
  | ValidationError _ t => t
  | PyError _ t => t
  end.

Inductive result (A : Type) : Type :=
| Ok (a : A)
| Raise (e : exn).
Arguments Ok {A} a.
Arguments Raise {A} e.

(** The calls that leave the process. *)
Inductive call : Type :=
| CompletionPost (prompt : string)
| ListNamespacedPod (namespace : string) (label_selector : option string)
| ReadNamespacedPod (name namespace : string)
| ListNode
| GetApiResources.

(** A call to the cluster, as opposed to the completion service. *)
Definition is_gateway_call (c : call) : bool :=
  match c with
  | CompletionPost _ => false
  | _ => true
  end.

(** A computation: its outcome and the calls it made, in order. *)
Definition M (A : Type) : Type := (result A * list call)%type.

Definition ret {A} (a : A) : M A := (Ok a, []).
Definition raise {A} (e : exn) : M A := (Raise e, []).
Definition lift {A} (r : result A) : M A := (r, []).

Definition bind {A B} (m : M A) (k : A -> M B) : M B :=
  match m with
  | (Ok a, t) => let (r, t') := k a in (r, (t ++ t')%list)
  | (Raise e, t) => (Raise e, t)
  end.

(** [try: m  except Exception as e: h e] *)
Definition try_catch {A} (m : M A) (h : exn -> M A) : M A :=
  match m with
  | (Ok a, t) => (Ok a, t)
  | (Raise e, t) => let (r, t') := h e in (r, (t ++ t')%list)
  end.

(** An outside call: recorded in the trace, with the outcome the world
    gives it. *)
Definition perform {A} (c : call) (outcome : result A) : M A :=
  (outcome, [c]).

Definition outcome {A} (m : M A) : result A := fst m.
Definition trace {A} (m : M A) : list call := snd m.

Declare Scope py_scope.
Delimit Scope py_scope with py.
Notation "x <- m ;; k" := (bind m (fun x => k))
  (at level 61, m at next level, right associativity) : py_scope.
Notation "m ;;; k" := (bind m (fun _ => k))
  (at level 61, right associativity) : py_scope.

(** [type(v).__name__] *)
Definition type_name (v : json) : string :=
  match v with
  | JNull => "NoneType"
  | JBool _ => "bool"
  | JInt _ => "int"
  | JFloat _ => "float"
  | JStr _ => "str"
  | JArr _ => "list"
  | JObj _ => "dict"
  end.

Definition no_attribute (v : json) (attr : string) : exn :=
  PyError "AttributeError"
    ("'" ++ type_name v ++ "' object has no attribute '" ++ attr ++ "'").

Fixpoint lookup (key : string) (items : list (string * json)) : option json :=
  match items with
  | (k, v) :: rest => if String.eqb k key then Some v else lookup key rest
  | [] => None
  end.

(** [v.get(key, default)] *)
Definition py_get (v : json) (key : string) (default : json) : result json :=
  match v with
  | JObj items =>
      match lookup key items with
      | Some x => Ok x
      | None => Ok default
      end
  | _ => Raise (no_attribute v "get")
  end.

(** [v[0]]. The keys of a decoded object are strings, so [0] is never one
    of them. *)
Definition py_index0 (v : json) : result json :=
  match v with
  | JArr (x :: _) => Ok x
  | JArr [] => Raise (PyError "IndexError" "list index out of range")
  | JStr (String c _) => Ok (JStr (String c ""))
  | JStr "" => Raise (PyError "IndexError" "string index out of range")
  | JObj _ => Raise (PyError "KeyError" "0")
  | _ =>
      Raise (PyError "TypeError"
               ("'" ++ type_name v ++ "' object is not subscriptable"))
  end.

(** [v.strip()] *)
Definition py_strip (v : json) : result string :=
  match v with
  | JStr s => Ok (strip s)
  | _ => Raise (no_attribute v "strip")
  end.

(** [re.findall(pattern, v)]; the [TypeError] for a value that is not a
    [str] reads as in CPython 3.11, which names the type it got. *)
Definition re_findall (r : Re.regex) (v : json) : result (list string) :=
  match v with
  | JStr s => Ok (Re.findall r s)
  | _ =>
      Raise (PyError "TypeError"
               ("expected string or bytes-like object, got '"
                  ++ type_name v ++ "'"))
  end.

(** [str(z)] for an [int]. *)
Definition of_Z (z : Z) : string := NilEmpty.string_of_int (Z.to_int z).

End Py.

Import Py.
Open Scope py_scope.

(* ================================================================== *)
(** * The world outside the process *)

Module World.

(** What the code reads of a [requests] response. *)
Record response : Type := {
  raise_for_status : result unit;
  json_body : result json
}.

(** What the code reads of a pod's [status]: its [phase], a [str] or
    [None]. *)
Record pod_status : Type := {
  phase : option string
}.

(** What the code reads of a pod: [metadata.name], and [status], which
    may be [None]. *)
Record pod : Type := {
  metadata_name : string;
  status : option pod_status
}.

(** The outcome of every outside call, as a function of its arguments;
    the code makes each call at most once per query. The last four fields
    are library behaviour the code relies on without fixing it: how an
    f-string renders a [float], [list] or [dict], and what pydantic does
    with a value of a [str] field that is neither [None] nor a [str]. *)
Record world : Type := {
  requests_post : string -> result response;
  list_namespaced_pod : string -> option string -> result (list pod);
  read_namespaced_pod : string -> string -> result pod;
  list_node : result (list string);
  get_api_resources : result unit;
  format_value : json -> string;
  pydantic_coerce : json -> option string;
  pydantic_errors : json -> json;
  pydantic_text : json -> string
}.

(** The inbound HTTP request: [request.get_json()] gives the decoded body
    or raises. *)
Record request : Type := {
  get_json : result json
}.

End World.

Import World.

(* ================================================================== *)
(** * Main.py

    Function by function, with the line numbers of the source. Calls to
    [logging] and the construction of the API client object take no part
    in what is returned or called, and are left out. *)

Module Main.

Section WithWorld.
Variable w : world.

(** [f"{v}"] *)
Definition py_str (v : json) : string :=
  match v with
  | JStr s => s
  | JNull => "None"
  | JBool true => "True"
  | JBool false => "False"
  | JInt z => of_Z z
  | _ => format_value w v
  end.

(** [f"{v}"] for a [str] or [None]. *)
Definition str_or_none (v : option string) : string :=
  match v with
  | Some s => s
  | None => "None"
  end.

(** Lines 30-44. *)
Definition generate_mistral_response (prompt : string) : M string :=
  response <- perform (CompletionPost prompt) (requests_post w prompt) ;;
  lift (raise_for_status response) ;;;
  data <- lift (json_body response) ;;
  choices <- lift (py_get data "choices" (JArr [JObj []])) ;;
  first <- lift (py_index0 choices) ;;
  message <- lift (py_get first "message" (JObj [])) ;;
  content <- lift (py_get message "content" (JStr "")) ;;
  lift (py_strip content).

(** [pod.status.phase]: an attribute of [None] cannot be read. *)
Definition pod_status_phase (p : pod) : result (option string) :=
  match status p with
  | Some st => Ok (phase st)
  | None =>
      Raise (PyError "AttributeError"
               "'NoneType' object has no attribute 'phase'")
  end.

(** Lines 46-65. The two [except] clauses are tried in order. *)
Definition get_pod_status (pod_name namespace : string)
    : M (option string) :=
  try_catch
    (pod <- perform (ReadNamespacedPod pod_name namespace)
              (read_namespaced_pod w pod_name namespace) ;;
     lift (pod_status_phase pod))
    (fun e =>
       match e with
       | ApiException status _ =>
           match status with
           | Some 404%Z => ret (Some "Pod not found.")
           | _ => ret (Some "An error occurred while retrieving pod status.")
           end
       | _ =>
           ret (Some
                  "An unexpected error occurred while retrieving pod status.")
       end).

(** Lines 67-81. *)
Definition get_pods_by_deployment (deployment_name namespace : string)
    : M string :=
  try_catch
    (pods <- perform
               (ListNamespacedPod namespace
                  (Some ("app=" ++ deployment_name)))
               (list_namespaced_pod w namespace
                  (Some ("app=" ++ deployment_name))) ;;
     match pods with
     | _ :: _ => ret deployment_name
     | [] => ret ("No pods found for deployment '" ++ deployment_name ++ "'.")
     end)
    (fun e =>
       match e with
       | ApiException _ _ =>
           ret "An error occurred while retrieving pods for the deployment."
       | _ =>
           ret ("An unexpected error occurred while retrieving pods "
                  ++ "for the deployment.")
       end).

(** Lines 137-140. *)
Definition get_pods (namespace : string) : M (list string) :=
  pods <- perform (ListNamespacedPod namespace None)
            (list_namespaced_pod w namespace None) ;;
  ret (map metadata_name pods).

(** Lines 143-146. *)
Definition get_node_count : M nat :=
  nodes <- perform ListNode (list_node w) ;;
  ret (List.length nodes).

(** Lines 148-157. *)
Definition is_api_server_accessible : M string :=
  try_catch
    (perform GetApiResources (get_api_resources w) ;;; ret "Yes")
    (fun _ => ret "No").

(** Lines 86-97: the f-string, line by line. *)
Definition structured_prompt (query : json) : string :=
  nl
  ++ "        You are a Kubernetes assistant. Given a user query, identify the Kubernetes action needed. Here are some examples:" ++ nl
  ++ "        " ++ nl
  ++ "        - " ++ dq ++ "How many pods are in the default namespace?" ++ dq ++ " -> count pods" ++ nl
  ++ "        - " ++ dq ++ "List all pods in the default namespace." ++ dq ++ " -> list all pods" ++ nl
  ++ "        - " ++ dq ++ "What is the status of the pod named 'example-pod'?" ++ dq ++ " -> check pod status" ++ nl
  ++ "        - " ++ dq ++ "How many nodes are there in the cluster?" ++ dq ++ " -> count nodes" ++ nl
  ++ "        - " ++ dq ++ "Is the API server accessible?" ++ dq ++ " -> check API server" ++ nl
  ++ "        - " ++ dq ++ "Which pod is spawned by my-deployment?" ++ dq ++ " -> list pods for deployment" ++ nl
  ++ nl
  ++ "        Based on this, interpret the following query: " ++ dq ++ py_str query ++ dq ++ nl
  ++ "        ".

(** [l[0] if l else None] *)
Definition first_or_none (l : list string) : option string :=
  match l with
  | x :: _ => Some x
  | [] => None
  end.

(** The truth value of a [str] or [None]. *)
Definition truthy (v : option string) : bool :=
  match v with
  | Some "" => false
  | Some _ => true
  | None => false
  end.

(** Lines 102-103. *)
Definition on_count_pods : M string :=
  pods <- get_pods "default" ;;
  ret ("There are " ++ of_nat (List.length pods)
         ++ " pods in the default namespace.").

(** Lines 105-106. *)
Definition on_list_all_pods : M string :=
  pod_names <- get_pods "default" ;;
  ret (String.concat ", " pod_names).

(** Lines 108-114. *)
Definition on_check_pod_status (query : json) : M string :=
  found <- lift (re_findall Re.pod_pattern query) ;;
  let pod_name := first_or_none found in
  if truthy pod_name then
    pod_status <- get_pod_status (str_or_none pod_name) "default" ;;
    ret ("The status of the pod '" ++ str_or_none pod_name ++ "' is '"
           ++ str_or_none pod_status ++ "'.")
  else ret "Invalid pod name format in query.".

(** Lines 116-117. *)
Definition on_count_nodes : M string :=
  node_count <- get_node_count ;;
  ret ("There are " ++ of_nat node_count ++ " nodes in the cluster.").

(** Line 119. *)
Definition on_check_api_server : M string := is_api_server_accessible.

(** Lines 121-127. *)
Definition on_list_pods_for_deployment (query : json) : M string :=
  found <- lift (re_findall Re.deployment_pattern query) ;;
  let deployment_name := first_or_none found in
  if truthy deployment_name then
    pod_names <-
      get_pods_by_deployment (str_or_none deployment_name) "default" ;;
    ret ("The pod(s) spawned by deployment '"
           ++ str_or_none deployment_name ++ "' are: " ++ pod_names)
  else ret "Invalid deployment name format in query.".

(** Line 129. *)
Definition on_unknown : M string :=
  ret "I'm sorry, I couldn't determine the action for this query.".

(** Lines 101-129: the [if]/[elif] chain over the classifier's text. *)
Definition dispatch (query : json) (intent_response : string) : M string :=
  if contains "count pods" intent_response then on_count_pods
  else if contains "list all pods" intent_response then on_list_all_pods
  else if contains "check pod status" intent_response then
    on_check_pod_status query
  else if contains "count nodes" intent_response then on_count_nodes
  else if contains "check API server" intent_response then
    on_check_api_server
  else if contains "list pods for deployment" intent_response then
    on_list_pods_for_deployment query
  else on_unknown.

(** Lines 85-129: the body of the [try]. *)
Definition process_query_body (query : json) : M string :=
  intent_response <- generate_mistral_response (structured_prompt query) ;;
  dispatch query intent_response.

(** Lines 83-133. *)
Definition process_query (query : json) : M string :=
  try_catch (process_query_body query)
    (fun e =>
       ret ("An error occurred while processing your query: " ++ str_exn e)).

(** [QueryResponse(query=query, answer=answer)]: both fields are declared
    [str]; the answer always is one. *)
Definition QueryResponse (query : json) (answer : string)
    : result (string * string) :=
  match query with
  | JStr s => Ok (s, answer)
  | JNull =>
      Raise (ValidationError (pydantic_errors w query)
               (pydantic_text w query))
  | _ =>
      match pydantic_coerce w query with
      | Some s => Ok (s, answer)
      | None =>
          Raise (ValidationError (pydantic_errors w query)
                   (pydantic_text w query))
      end
  end.

(** Lines 163-188: the HTTP status and the JSON body of the reply. *)
Definition create_query (req : request) : M (Z * json) :=
  try_catch
    (request_data <- lift (get_json req) ;;
     query <- lift (py_get request_data "query" JNull) ;;
     answer <- process_query query ;;
     response <- lift (QueryResponse query answer) ;;
     ret (200%Z,
          JObj [("query", JStr (fst response));
                ("answer", JStr (snd response))]))
    (fun e =>
       match e with
       | ValidationError errors _ => ret (400%Z, JObj [("error", errors)])
       | _ =>
           ret (500%Z,
                JObj [("error", JStr "An unexpected error occurred.")])
       end).

End WithWorld.

(** Lines 108-109 and 121-122 on a query that is a [str]: the first
    element of the [findall] list, or [None]. *)
Definition extract_pod_name (query : string) : option string :=
  first_or_none (Re.findall Re.pod_pattern query).

Definition extract_deployment_name (query : string) : option string :=
  first_or_none (Re.findall Re.deployment_pattern query).

End Main.

Import Main.

(* ================================================================== *)
(** * The specification's vocabulary *)

Module Spec.

(** The closed enumeration of intents. *)
Inductive Intent : Type :=
| CountPods
| ListPods
| CheckPodStatus
| CountNodes
| CheckApiServer
| ListPodsForDeployment
| Unknown.

(** The six canonical phrases, in priority order. *)
Definition canonical_phrases : list (string * Intent) :=
  [ ("count pods", CountPods);
    ("list all pods", ListPods);
    ("check pod status", CheckPodStatus);
    ("count nodes", CountNodes);
    ("check API server", CheckApiServer);
    ("list pods for deployment", ListPodsForDeployment) ].

(** The first phrase of the list that the raw text contains decides; no
    phrase: [Unknown]. *)
Definition resolveIntent (raw : string) : Intent :=
  match find (fun e => contains (fst e) raw) canonical_phrases with
  | Some e => snd e
  | None => Unknown
  end.

(** The branch of the dispatcher that serves an intent. *)
Definition serve (w : world) (query : json) (i : Intent) : M string :=
  match i with
  | CountPods => on_count_pods w
  | ListPods => on_list_all_pods w
  | CheckPodStatus => on_check_pod_status w query
  | CountNodes => on_count_nodes w
  | CheckApiServer => on_check_api_server w
  | ListPodsForDeployment => on_list_pods_for_deployment w query
  | Unknown => on_unknown
  end.

(** [i] is the intent of the first phrase of the priority list that
    occurs in [raw]. *)
Definition FirstPhrase (raw : string) (i : Intent) : Prop :=
  exists before p after,
    canonical_phrases = (before ++ (p, i) :: after)%list
    /\ Substring p raw
    /\ forall e, In e before -> ~ Substring (fst e) raw.

(** None of the six phrases occurs in [raw]. *)
Definition NoPhrase (raw : string) : Prop :=
  forall e, In e canonical_phrases -> ~ Substring (fst e) raw.

(** The answer to a pod-status query. *)
Definition status_answer (name status : string) : string :=
  "The status of the pod '" ++ name ++ "' is '" ++ status ++ "'.".

(** The generated-error answer carrying the failure detail. *)
Definition error_answer (e : exn) : string :=
  "An error occurred while processing your query: " ++ str_exn e.

(** The classifier answered [raw] to the query. *)
Definition classified (w : world) (query : json) (raw : string) : Prop :=
  outcome (generate_mistral_response w (structured_prompt w query)) = Ok raw.

(** No call of the trace went to the cluster. *)
Definition no_gateway_call (t : list call) : Prop :=
  Forall (fun c => is_gateway_call c = false) t.

(** [s] starts with the word "named", then whitespace, an optional quote
    and the token [x] of word characters, digits and hyphens, taken as far
    as it goes. *)
Definition PodNameAt (s x : string) : Prop :=
  exists ws q rest,
    s = "named" ++ ws ++ q ++ x ++ rest
    /\ ws <> "" /\ all_chars is_space ws = true
    /\ (q = "" \/ q = "'")
    /\ x <> "" /\ all_chars Re.name_char x = true
    /\ starts_with_char Re.name_char rest = false.

(** [s] starts with the word "by", then whitespace and the token [x] of
    word characters, digits and hyphens, taken as far as it goes. *)
Definition DeploymentNameAt (s x : string) : Prop :=
  exists ws rest,
    s = "by" ++ ws ++ x ++ rest
    /\ ws <> "" /\ all_chars is_space ws = true
    /\ x <> "" /\ all_chars Re.name_char x = true
    /\ starts_with_char Re.name_char rest = false.

(** Both shapes at once: the word, whitespace, a quote only where the
    pattern allows one, and the token taken as far as it goes. *)
Definition NameAfter (word : string) (quoted : bool) (s x : string) : Prop :=
  exists ws q rest,
    s = word ++ ws ++ q ++ x ++ rest
    /\ ws <> "" /\ all_chars is_space ws = true
    /\ (q = "" \/ (quoted = true /\ q = "'"))
    /\ x <> "" /\ all_chars Re.name_char x = true
    /\ starts_with_char Re.name_char rest = false.

(** [x] is the capture of the first (leftmost) place of [text] where the
    pattern matches. *)
Definition FirstCapture (At : string -> string -> Prop) (text x : string)
    : Prop :=
  exists pre s,
    text = pre ++ s /\ At s x
    /\ forall pre' s' x',
         text = pre' ++ s' -> String.length pre' < String.length pre ->
         ~ At s' x'.

(** The pattern matches nowhere in [text]. *)
Definition NoMatch (At : string -> string -> Prop) (text : string) : Prop :=
  forall pre s x, text = pre ++ s -> ~ At s x.

(** The answer the specification words for a deployment query: the pods
    found for the deployment, by name. *)
Definition pods_found_answer (name : string) (pods : list pod) : string :=
  "The pod(s) spawned by deployment '" ++ name ++ "' are: "
    ++ String.concat ", " (map metadata_name pods).

End Spec.

Import Spec.

(* ================================================================== *)
(** * Sample worlds *)

Module Sample.

(** A successful completion whose top choice has the given content. *)
Definition reply (content : string) : response :=
  {| raise_for_status := Ok tt;
     json_body :=
       Ok (JObj [("choices",
                  JArr [JObj [("message",
                               JObj [("content", JStr content)])]])]) |}.

(** A successful completion with an empty list of choices. *)
Definition reply_without_choices : response :=
  {| raise_for_status := Ok tt;
     json_body := Ok (JObj [("choices", JArr [])]) |}.

(** A world in which the completion service answers [resp] to every
    prompt, every pod listing gives [pods] and every pod lookup gives
    [looked_up]. *)
Definition world_of (resp : result response) (pods : result (list pod))
    (looked_up : result pod) : world :=
  {| requests_post := fun _ => resp;
     list_namespaced_pod := fun _ _ => pods;
     read_namespaced_pod := fun _ _ => looked_up;
     list_node := Ok ["minikube"];
     get_api_resources := Ok tt;
     format_value := fun _ => "";
     pydantic_coerce := fun _ => None;
     pydantic_errors := fun _ => JArr [];
     pydantic_text := fun _ => "" |}.

Definition not_found : result pod :=
  Raise (ApiException (Some 404%Z) "(404) Reason: Not Found").

Definition forbidden : result pod :=
  Raise (ApiException (Some 403%Z) "(403) Reason: Forbidden").

Definition running (name : string) : pod :=
  {| metadata_name := name; status := Some {| phase := Some "Running" |} |}.

Definition deployment_pods : list pod :=
  [running "my-deployment-5c689d88bb-qwnts";
   running "my-deployment-5c689d88bb-x7k2p"].

End Sample.

(* ================================================================== *)
(** * Vocabulary for the properties of the remaining code *)

Module Props.

Fixpoint last_char (s : string) : option ascii :=
  match s with
  | String c "" => Some c
  | String _ s' => last_char s'
  | "" => None
  end.

(** The last character, if any, satisfies [p]. *)
Definition ends_with_char (p : ascii -> bool) (s : string) : bool :=
  match last_char s with
  | Some c => p c
  | None => false
  end.

(** The calls to the cluster that a query can lead to: the listings of
    the default namespace and of the nodes, the API probe, the lookup of
    the pod named in the query text, and the listing by the label of the
    deployment named in the query text. *)
Definition expected_call (query : json) (c : call) : Prop :=
  c = ListNamespacedPod "default" None
  \/ c = ListNode
  \/ c = GetApiResources
  \/ (exists q x,
        query = JStr q /\ extract_pod_name q = Some x
        /\ c = ReadNamespacedPod x "default")
  \/ (exists q d,
        query = JStr q /\ extract_deployment_name q = Some d
        /\ c = ListNamespacedPod "default" (Some ("app=" ++ d))).

(** The body of the request cannot be read as an object: decoding it
    raises (anything but pydantic's error), or gives a value that is not a
    JSON object. *)
Definition bad_body (req : request) : Prop :=
  (exists e, get_json req = Raise e
             /\ forall errors text, e <> ValidationError errors text)
  \/ (exists v, get_json req = Ok v /\ forall items, v <> JObj items).

(** A decoded body has no "query" field: no member of that name (a
    value that is not an object has no member at all). *)
Definition lacks_query_field (v : json) : Prop :=
  forall items value,
    v = JObj items -> lookup "query" items = Some value -> False.

(** The answer to a pod-status query, by what the lookup gave: the phase
    of the pod ('None' when it has none), or the helper's sentence for a
    pod without status. *)
Definition looked_up_status (p : pod) : string :=
  match status p with
  | Some st =>
      match phase st with
      | Some text => text
      | None => "None"
      end
  | None => "An unexpected error occurred while retrieving pod status."
  end.



(** The value the endpoint reads as the query of an object body. *)
Definition query_of (items : list (string * json)) : json :=
  match lookup "query" items with
  | Some v => v
  | None => JNull
  end.

End Props.

Import Props.

(* ================================================================== *)
(** * Facts about strings *)

Section StringFacts.

Lemma append_nil_r (s : string) : s ++ "" = s.
Proof. induction s as [|c s IH]; simpl; [reflexivity | now rewrite IH]. Qed.

Lemma append_assoc (a b c : string) : (a ++ b) ++ c = a ++ b ++ c.
Proof. induction a as [|x a IH]; simpl; [reflexivity | now rewrite IH]. Qed.

Lemma length_append (a b : string) :
  String.length (a ++ b) = String.length a + String.length b.
Proof. induction a as [|x a IH]; simpl; [reflexivity | now rewrite IH]. Qed.

Lemma strip_prefix_app (p s : string) : strip_prefix p (p ++ s) = Some s.
Proof.
  induction p as [|a p IH]; simpl; [reflexivity|].
  now rewrite Ascii.eqb_refl.
Qed.

Lemma strip_prefix_inv (p s r : string) :
  strip_prefix p s = Some r -> s = p ++ r.
Proof.
  revert s; induction p as [|a p IH]; simpl; intros s H.
  - now inversion H.
  - destruct s as [|b s]; [discriminate|].
    destruct (Ascii.eqb_spec a b) as [->|]; [|discriminate].
    now rewrite (IH _ H).
Qed.

Lemma contains_unfold (p s : string) :
  contains p s =
  match strip_prefix p s with
  | Some _ => true
  | None => match s with String _ s' => contains p s' | "" => false end
  end.
Proof. destruct s; reflexivity. Qed.

(** [contains] decides [Substring]. *)
Lemma contains_iff (p s : string) : contains p s = true <-> Substring p s.
Proof.
  split.
  - induction s as [|c s IH]; simpl.
    + destruct (strip_prefix p "") as [r|] eqn:E; [|discriminate].
      intros _. exists "", r. apply (strip_prefix_inv _ _ E).
    + destruct (strip_prefix p (String c s)) as [r|] eqn:E.
      * intros _. exists "", r. apply (strip_prefix_inv _ _ E).
      * intros H. destruct (IH H) as (a & b & ->).
        now exists (String c a), b.
  - intros (a & b & ->). induction a as [|c a IH].
    + rewrite contains_unfold. simpl. now rewrite strip_prefix_app.
    + rewrite contains_unfold.
      destruct (strip_prefix p (String c a ++ p ++ b)); [reflexivity|].
      exact IH.
Qed.

Lemma contains_false_iff (p s : string) :
  contains p s = false <-> ~ Substring p s.
Proof.
  rewrite <- contains_iff. destruct (contains p s); split; intros H;
    try reflexivity; try discriminate; try (intros E; discriminate).
  now elim H.
Qed.

Variable p : ascii -> bool.

Lemma take_drop_while (s : string) : take_while p s ++ drop_while p s = s.
Proof.
  induction s as [|c s IH]; simpl; [reflexivity|].
  destruct (p c); simpl; [now rewrite IH | reflexivity].
Qed.

Lemma all_chars_take_while (s : string) : all_chars p (take_while p s) = true.
Proof.
  induction s as [|c s IH]; simpl; [reflexivity|].
  destruct (p c) eqn:E; simpl; [now rewrite E | reflexivity].
Qed.

Lemma drop_while_stops (s : string) :
  starts_with_char p (drop_while p s) = false.
Proof.
  induction s as [|c s IH]; simpl; [reflexivity|].
  destruct (p c) eqn:E; simpl; [exact IH | exact E].
Qed.

(** A run of [p]-characters followed by something that does not start
    with one is split by [take_while] / [drop_while] exactly there. *)
Lemma span_unique (a b : string) :
  all_chars p a = true -> starts_with_char p b = false ->
  take_while p (a ++ b) = a /\ drop_while p (a ++ b) = b.
Proof.
  intros Ha Hb. induction a as [|c a IH]; simpl in *.
  - destruct b as [|d b]; simpl in *; [now split|]. now rewrite Hb.
  - apply andb_prop in Ha as [Hc Ha]. rewrite Hc.
    destruct (IH Ha) as [-> ->]. now split.
Qed.

Lemma drop_while_length (s : string) :
  String.length (drop_while p s) <= String.length s.
Proof.
  induction s as [|c s IH]; simpl; [lia|].
  destruct (p c); simpl; lia.
Qed.

Lemma consumed_drop_while (s : string) :
  Re.consumed s (drop_while p s) = take_while p s.
Proof.
  unfold Re.consumed. induction s as [|c s IH]; [reflexivity|].
  cbn [drop_while take_while]. destruct (p c) eqn:E.
  - pose proof (drop_while_length s) as L. cbn [String.length].
    replace (S (String.length s) - String.length (drop_while p s))
      with (S (String.length s - String.length (drop_while p s))) by lia.
    cbn [substring]. now rewrite IH.
  - rewrite Nat.sub_diag. reflexivity.
Qed.

Lemma starts_with_char_app (a b : string) :
  a <> "" -> starts_with_char p (a ++ b) = starts_with_char p a.
Proof. destruct a; simpl; [now intros H; elim H | reflexivity]. Qed.

Lemma starts_all_chars (a : string) :
  a <> "" -> all_chars p a = true -> starts_with_char p a = true.
Proof.
  destruct a; simpl; [now intros H; elim H|].
  intros _ H. now apply andb_prop in H as [H _].
Qed.

End StringFacts.

(** The three character classes of the patterns do not overlap. *)
Lemma space_not_name (c : ascii) : is_space c = true -> Re.name_char c = false.
Proof.
  destruct c as [[] [] [] [] [] [] [] []]; vm_compute; intros H;
    first [reflexivity | discriminate H].
Qed.

Lemma space_not_quote (c : ascii) : is_space c = true -> Ascii.eqb "'" c = false.
Proof.
  destruct (Ascii.eqb_spec "'" c) as [<-|]; [|reflexivity].
  vm_compute. intros H; discriminate H.
Qed.

Lemma name_not_quote (c : ascii) :
  Re.name_char c = true -> Ascii.eqb "'" c = false.
Proof.
  destruct (Ascii.eqb_spec "'" c) as [<-|]; [|reflexivity].
  vm_compute. intros H; discriminate H.
Qed.

(* ================================================================== *)
(** * The backtracking matcher on the two patterns *)

Section MatcherFacts.
Variable X : Type.
Implicit Type k : Re.cont X.

Lemma rmatch_seq (r1 r2 : Re.regex) (s : string) cap k :
  Re.rmatch (Re.Seq r1 r2) s cap k =
  Re.rmatch r1 s cap (fun s1 cap1 => Re.rmatch r2 s1 cap1 k).
Proof. reflexivity. Qed.

Lemma rmatch_opt (r : Re.regex) (s : string) cap k :
  Re.rmatch (Re.Opt r) s cap k =
  match Re.rmatch r s cap k with
  | Some x => Some x
  | None => k s cap
  end.
Proof. reflexivity. Qed.

Lemma rmatch_lit (c : ascii) (s : string) cap k :
  Re.rmatch (Re.Lit c) s cap k =
  match s with
  | String d s' => if Ascii.eqb c d then k s' cap else None
  | "" => None
  end.
Proof. reflexivity. Qed.

Lemma rmatch_plus (p : ascii -> bool) (s : string) cap k :
  Re.rmatch (Re.PlusClass p) s cap k = Re.plus_class p s cap k.
Proof. reflexivity. Qed.

Lemma rmatch_lits (w : string) (r : Re.regex) (s : string) cap k :
  Re.rmatch (Re.lits w r) s cap k =
  match strip_prefix w s with
  | Some s' => Re.rmatch r s' cap k
  | None => None
  end.
Proof.
  revert s; induction w as [|a w IH]; intros s; [reflexivity|].
  cbn [Re.lits Re.rmatch strip_prefix].
  destruct s as [|b s]; [reflexivity|].
  destruct (Ascii.eqb a b); [apply IH | reflexivity].
Qed.

(** When what follows cannot start with a character of the class, the
    greedy run is the only way to match. *)
Lemma plus_class_commit (p : ascii -> bool) (s : string) cap k :
  (forall c t, p c = true -> k (String c t) cap = None) ->
  Re.plus_class p s cap k =
  if starts_with_char p s then k (drop_while p s) cap else None.
Proof.
  intros Hk. induction s as [|c s IH]; [reflexivity|].
  cbn [Re.plus_class starts_with_char drop_while].
  destruct (p c) eqn:Hc; [|reflexivity].
  rewrite IH. destruct s as [|d s]; [reflexivity|].
  cbn [starts_with_char drop_while]. destruct (p d) eqn:Hd.
  - destruct (k (drop_while p s) cap) eqn:E; [reflexivity|].
    now apply Hk.
  - reflexivity.
Qed.

(** When what follows always matches, the greedy run is the match. *)
Lemma plus_class_greedy (p : ascii -> bool) (s : string) cap k :
  (forall t, k t cap <> None) ->
  Re.plus_class p s cap k =
  if starts_with_char p s then k (drop_while p s) cap else None.
Proof.
  intros Hk. induction s as [|c s IH]; [reflexivity|].
  cbn [Re.plus_class starts_with_char drop_while].
  destruct (p c) eqn:Hc; [|reflexivity].
  rewrite IH. destruct s as [|d s]; [reflexivity|].
  cbn [starts_with_char drop_while]. destruct (p d) eqn:Hd.
  - destruct (k (drop_while p s) cap) eqn:E; [reflexivity|].
    now elim (Hk (drop_while p s)).
  - reflexivity.
Qed.
End MatcherFacts.

Lemma group_then_quote (s : string) cap :
  Re.rmatch (Re.Seq (Re.Group (Re.PlusClass Re.name_char))
               (Re.Opt (Re.Lit "'"))) s cap Re.finish =
  if starts_with_char Re.name_char s then
    Some (Re.after_quote (drop_while Re.name_char s),
          take_while Re.name_char s)
  else None.
Proof.
  cbn [Re.rmatch]. rewrite plus_class_greedy.
  - destruct (starts_with_char Re.name_char s); [|reflexivity].
    rewrite consumed_drop_while.
    destruct (drop_while Re.name_char s) as [|d t]; [reflexivity|].
    unfold Re.after_quote, Re.finish. now destruct (Ascii.eqb "'" d).
  - intros t. destruct t as [|d t]; [discriminate|].
    unfold Re.finish. now destruct (Ascii.eqb "'" d).
Qed.

Lemma group_alone (s : string) cap :
  Re.rmatch (Re.Group (Re.PlusClass Re.name_char)) s cap Re.finish =
  if starts_with_char Re.name_char s then
    Some (drop_while Re.name_char s, take_while Re.name_char s)
  else None.
Proof.
  cbn [Re.rmatch]. rewrite plus_class_greedy.
  - destruct (starts_with_char Re.name_char s); [|reflexivity].
    now rewrite consumed_drop_while.
  - discriminate.
Qed.

Lemma starts_after_quote (s : string) :
  starts_with_char Re.name_char s = true -> Re.after_quote s = s.
Proof.
  destruct s as [|c s]; [reflexivity|].
  cbn [Re.after_quote starts_with_char]. intros H.
  now rewrite (name_not_quote _ H).
Qed.

Lemma quote_group_then_quote (s : string) cap :
  Re.rmatch (Re.Seq (Re.Opt (Re.Lit "'"))
               (Re.Seq (Re.Group (Re.PlusClass Re.name_char))
                  (Re.Opt (Re.Lit "'")))) s cap Re.finish =
  if starts_with_char Re.name_char (Re.after_quote s) then
    Some (Re.after_quote (drop_while Re.name_char (Re.after_quote s)),
          take_while Re.name_char (Re.after_quote s))
  else None.
Proof.
  rewrite rmatch_seq, rmatch_opt, rmatch_lit.
  destruct s as [|c t]; [reflexivity|].
  cbn [Re.after_quote]. destruct (Ascii.eqb "'" c) eqn:Q.
  - rewrite !group_then_quote.
    destruct (starts_with_char Re.name_char t) eqn:E; [reflexivity|].
    cbn [starts_with_char].
    destruct (Re.name_char c) eqn:N; [|reflexivity].
    rewrite (name_not_quote _ N) in Q. discriminate.
  - now rewrite group_then_quote.
Qed.

(** The backtracking match of the pod pattern is the direct one. *)
Lemma match_at_pod_pattern (s : string) :
  Re.match_at Re.pod_pattern s = Re.name_after "named" true s.
Proof.
  unfold Re.match_at, Re.pod_pattern, Re.name_after.
  rewrite rmatch_lits.
  destruct (strip_prefix "named" s) as [s1|]; [|reflexivity].
  rewrite rmatch_seq, rmatch_plus, plus_class_commit.
  - destruct (starts_with_char is_space s1); [|reflexivity].
    apply quote_group_then_quote.
  - intros c t Hc. rewrite quote_group_then_quote.
    cbn [Re.after_quote]. rewrite (space_not_quote _ Hc).
    cbn [starts_with_char]. now rewrite (space_not_name _ Hc).
Qed.

(** The backtracking match of the deployment pattern is the direct one. *)
Lemma match_at_deployment_pattern (s : string) :
  Re.match_at Re.deployment_pattern s = Re.name_after "by" false s.
Proof.
  unfold Re.match_at, Re.deployment_pattern, Re.name_after.
  rewrite rmatch_lits.
  destruct (strip_prefix "by" s) as [s1|]; [|reflexivity].
  rewrite rmatch_seq, rmatch_plus, plus_class_commit.
  - destruct (starts_with_char is_space s1); [|reflexivity].
    apply group_alone.
  - intros c t Hc. rewrite group_alone.
    cbn [starts_with_char]. now rewrite (space_not_name _ Hc).
Qed.

(* ================================================================== *)
(** * The direct match and its declarative reading *)

Lemma take_while_nonempty (p : ascii -> bool) (s : string) :
  starts_with_char p s = true -> take_while p s <> "".
Proof.
  destruct s as [|c s]; [discriminate|].
  cbn [starts_with_char take_while]. intros ->. discriminate.
Qed.

Lemma after_quote_split (s : string) :
  exists q, (q = "" \/ q = "'") /\ s = q ++ Re.after_quote s.
Proof.
  destruct s as [|c s]; [exists ""; now split; [left|]|].
  cbn [Re.after_quote]. destruct (Ascii.eqb_spec "'" c) as [<-|].
  - exists "'". split; [now right | reflexivity].
  - exists "". split; [now left | reflexivity].
Qed.

Lemma name_start_not_space (x rest : string) :
  x <> "" -> all_chars Re.name_char x = true ->
  starts_with_char is_space (x ++ rest) = false.
Proof.
  destruct x as [|c x]; [now intros H; elim H|]. intros _ H.
  cbn in H. apply andb_prop in H as [H _]. cbn [append starts_with_char].
  destruct (is_space c) eqn:E; [|reflexivity].
  rewrite (space_not_name _ E) in H. discriminate.
Qed.

Lemma name_after_sound (word : string) (quoted : bool) (s rest x : string) :
  Re.name_after word quoted s = Some (rest, x) -> NameAfter word quoted s x.
Proof.
  unfold Re.name_after.
  destruct (strip_prefix word s) as [s1|] eqn:P; [|discriminate].
  apply strip_prefix_inv in P. subst s.
  destruct (starts_with_char is_space s1) eqn:W; [|discriminate].
  set (s2 := drop_while is_space s1).
  assert (Hq : exists q, (q = "" \/ (quoted = true /\ q = "'"))
                         /\ s2 = q ++ (if quoted then Re.after_quote s2 else s2)).
  { destruct quoted.
    - destruct (after_quote_split s2) as (q & [->| ->] & E).
      + exists "". split; [now left | exact E].
      + exists "'". split; [now right | exact E].
    - exists "". split; [now left | reflexivity]. }
  destruct Hq as (q & Hq & E2).
  set (s3 := if quoted then Re.after_quote s2 else s2) in *.
  destruct (starts_with_char Re.name_char s3) eqn:N; [|discriminate].
  intros H. inversion H; subst x; clear H.
  exists (take_while is_space s1), q, (drop_while Re.name_char s3).
  repeat split.
  - rewrite take_drop_while, <- E2. unfold s2.
    now rewrite take_drop_while.
  - now apply take_while_nonempty.
  - apply all_chars_take_while.
  - exact Hq.
  - now apply take_while_nonempty.
  - apply all_chars_take_while.
  - apply drop_while_stops.
Qed.

Lemma name_after_complete (word : string) (quoted : bool) (s x : string) :
  NameAfter word quoted s x ->
  exists rest, Re.name_after word quoted s = Some (rest, x).
Proof.
  intros (ws & q & rest & -> & Hws & Aws & Hq & Hx & Ax & Hrest).
  unfold Re.name_after. rewrite strip_prefix_app.
  rewrite (starts_with_char_app is_space _ Hws).
  rewrite (starts_all_chars is_space Hws Aws).
  assert (Hnq : starts_with_char is_space (q ++ x ++ rest) = false).
  { destruct Hq as [->|[_ ->]]; [|reflexivity].
    exact (name_start_not_space rest Hx Ax). }
  destruct (span_unique is_space ws (q ++ x ++ rest) Aws Hnq) as [_ ->].
  assert (Hs3 : (if quoted then Re.after_quote (q ++ x ++ rest)
                 else q ++ x ++ rest) = x ++ rest).
  { destruct Hq as [->|[-> ->]].
    - destruct quoted; [|reflexivity].
      apply starts_after_quote. cbn [append].
      rewrite (starts_with_char_app Re.name_char _ Hx).
      now apply starts_all_chars.
    - reflexivity. }
  rewrite Hs3.
  rewrite (starts_with_char_app Re.name_char _ Hx).
  rewrite (starts_all_chars Re.name_char Hx Ax).
  destruct (span_unique Re.name_char x rest Ax Hrest) as [-> ->].
  eexists; reflexivity.
Qed.

Lemma PodNameAt_NameAfter (s x : string) :
  PodNameAt s x <-> NameAfter "named" true s x.
Proof.
  split; intros (ws & q & rest & E & Hws & Aws & Hq & H).
  - exists ws, q, rest. repeat split; try tauto.
    all: destruct Hq as [->| ->]; [now left | now right].
  - exists ws, q, rest. repeat split; try tauto.
    all: destruct Hq as [->|[_ ->]]; [now left | now right].
Qed.

Lemma DeploymentNameAt_NameAfter (s x : string) :
  DeploymentNameAt s x <-> NameAfter "by" false s x.
Proof.
  split.
  - intros (ws & rest & E & H). exists ws, "", rest.
    repeat split; try tauto. all: now left.
  - intros (ws & q & rest & E & Hws & Aws & Hq & H).
    destruct Hq as [->|[Q _]]; [|discriminate].
    exists ws, rest. repeat split; tauto.
Qed.

(** ** The scan for the first match *)

Lemma findall_first (r : Re.regex) (s : string) :
  first_or_none (Re.findall r s) = Re.first_capture (Re.match_at r) s.
Proof.
  unfold Re.findall. induction s as [|c s IH].
  - cbn [Re.findall_from Re.first_capture].
    now destruct (Re.match_at r "") as [[rest cap]|].
  - cbn [Re.findall_from Re.first_capture].
    destruct (Re.match_at r (String c s)) as [[rest cap]|]; [reflexivity|].
    exact IH.
Qed.

Lemma first_capture_ext (f g : string -> option (string * string)) :
  (forall s, f s = g s) ->
  forall s, Re.first_capture f s = Re.first_capture g s.
Proof.
  intros E s. induction s as [|c s IH]; cbn [Re.first_capture];
    rewrite E; [reflexivity|].
  destruct (g (String c s)) as [[? ?]|]; [reflexivity | exact IH].
Qed.

Section FirstCapture.
Variable f : string -> option (string * string).
Variable At : string -> string -> Prop.
Hypothesis f_sound : forall s rest x, f s = Some (rest, x) -> At s x.
Hypothesis f_complete : forall s x, At s x -> exists rest, f s = Some (rest, x).

Lemma first_capture_some (text x : string) :
  Re.first_capture f text = Some x <-> FirstCapture At text x.
Proof.
  revert x. induction text as [|c t IH]; intros x; cbn [Re.first_capture].
  - split.
    + destruct (f "") as [[rest y]|] eqn:E; [|discriminate].
      intros H; inversion H; subst y. exists "", "".
      split; [reflexivity|]. split; [eapply f_sound; eauto|].
      intros pre' s' x' _ L. cbn in L. lia.
    + intros (pre & s & E & HA & _).
      destruct pre; [|discriminate]. cbn in E. subst s.
      destruct (f_complete HA) as (rest & ->). reflexivity.
  - destruct (f (String c t)) as [[rest y]|] eqn:E.
    + split.
      * intros H; inversion H; subst y. exists "", (String c t).
        split; [reflexivity|]. split; [eapply f_sound; eauto|].
        intros pre' s' x' _ L. cbn in L. lia.
      * intros (pre & s & E' & HA & Hmin). destruct pre as [|d pre].
        -- cbn in E'. subst s. destruct (f_complete HA) as (rest' & E2).
           rewrite E2 in E. now inversion E.
        -- elim (Hmin "" (String c t) y eq_refl); [cbn; lia|].
           eapply f_sound; eauto.
    + rewrite IH. split.
      * intros (pre & s & -> & HA & Hmin). exists (String c pre), s.
        split; [reflexivity|]. split; [exact HA|].
        intros pre' s' x' E' L. destruct pre' as [|d pre'].
        -- cbn in E'. subst s'. intros HA'.
           destruct (f_complete HA') as (rest' & E2). congruence.
        -- cbn in E'. inversion E'.
           apply (Hmin pre' s' x'); [assumption | cbn in L; lia].
      * intros (pre & s & E' & HA & Hmin). destruct pre as [|d pre].
        -- cbn in E'. subst s. destruct (f_complete HA) as (rest' & E2).
           congruence.
        -- cbn in E'. inversion E'. subst d t. exists pre, s.
           split; [reflexivity|]. split; [exact HA|].
           intros pre' s' x' E2 L.
           apply (Hmin (String c pre') s' x'); [now rewrite E2 | cbn; lia].
Qed.

Lemma first_capture_none (text : string) :
  Re.first_capture f text = None <-> NoMatch At text.
Proof.
  induction text as [|c t IH]; cbn [Re.first_capture].
  - destruct (f "") as [[rest y]|] eqn:E; split; try discriminate.
    + intros H. elim (H "" "" y eq_refl). eapply f_sound; eauto.
    + intros _ pre s x E' HA. destruct pre; [|discriminate].
      cbn in E'. subst s. destruct (f_complete HA) as (r & E2). congruence.
    + reflexivity.
  - destruct (f (String c t)) as [[rest y]|] eqn:E.
    + split; [discriminate|].
      intros H. elim (H "" (String c t) y eq_refl). eapply f_sound; eauto.
    + rewrite IH. split.
      * intros H pre s x E' HA. destruct pre as [|d pre].
        -- cbn in E'. subst s. destruct (f_complete HA) as (r & E2).
           congruence.
        -- cbn in E'. inversion E'. now apply (H pre s x).
      * intros H pre s x E' HA.
        apply (H (String c pre) s x); [now rewrite E' | exact HA].
Qed.
End FirstCapture.

(* ================================================================== *)
(** * Argument extraction *)

Lemma extract_pod_name_direct (q : string) :
  extract_pod_name q = Re.first_capture (Re.name_after "named" true) q.
Proof.
  unfold extract_pod_name. rewrite findall_first.
  apply first_capture_ext, match_at_pod_pattern.
Qed.

Lemma extract_deployment_name_direct (q : string) :
  extract_deployment_name q = Re.first_capture (Re.name_after "by" false) q.
Proof.
  unfold extract_deployment_name. rewrite findall_first.
  apply first_capture_ext, match_at_deployment_pattern.
Qed.

Lemma name_after_pod_sound (s rest x : string) :
  Re.name_after "named" true s = Some (rest, x) -> PodNameAt s x.
Proof. intros H. eapply PodNameAt_NameAfter, name_after_sound, H. Qed.

Lemma name_after_pod_complete (s x : string) :
  PodNameAt s x -> exists rest, Re.name_after "named" true s = Some (rest, x).
Proof. intros H. now apply name_after_complete, PodNameAt_NameAfter. Qed.

Lemma name_after_deployment_sound (s rest x : string) :
  Re.name_after "by" false s = Some (rest, x) -> DeploymentNameAt s x.
Proof. intros H. eapply DeploymentNameAt_NameAfter, name_after_sound, H. Qed.

Lemma name_after_deployment_complete (s x : string) :
  DeploymentNameAt s x ->
  exists rest, Re.name_after "by" false s = Some (rest, x).
Proof. intros H. now apply name_after_complete, DeploymentNameAt_NameAfter. Qed.

Lemma extract_pod_name_some (q x : string) :
  extract_pod_name q = Some x <-> FirstCapture PodNameAt q x.
Proof.
  rewrite extract_pod_name_direct.
  apply first_capture_some;
    [exact name_after_pod_sound | exact name_after_pod_complete].
Qed.

Lemma extract_deployment_name_some (q x : string) :
  extract_deployment_name q = Some x <-> FirstCapture DeploymentNameAt q x.
Proof.
  rewrite extract_deployment_name_direct.
  apply first_capture_some;
    [exact name_after_deployment_sound | exact name_after_deployment_complete].
Qed.

(** A captured name is never empty, so it is a true value in Python. *)
Lemma extract_pod_name_nonempty (q x : string) :
  extract_pod_name q = Some x -> x <> "".
Proof.
  intros H. apply extract_pod_name_some in H.
  destruct H as (_ & _ & _ & (_ & _ & _ & _ & _ & _ & _ & H & _) & _).
  exact H.
Qed.

Lemma extract_deployment_name_nonempty (q x : string) :
  extract_deployment_name q = Some x -> x <> "".
Proof.
  intros H. apply extract_deployment_name_some in H.
  destruct H as (_ & _ & _ & (_ & _ & _ & _ & _ & H & _) & _).
  exact H.
Qed.

(** C6: pod-name extraction on the query text is the first element of
    [re.findall] with the pattern of line 108; it returns [x] exactly when
    [x] is the capture at the leftmost place where the text reads "named",
    whitespace, an optional quote and a token of word characters, digits
    and hyphens (taken as far as it goes, a closing quote being optional),
    and it returns [None] exactly when there is no such place. On "What is
    the status of the pod named 'example-pod'?" it gives "example-pod". *)
Theorem extract_pod_name_first_match :
  (forall q x, extract_pod_name q = Some x <-> FirstCapture PodNameAt q x)
  /\ (forall q, extract_pod_name q = None <-> NoMatch PodNameAt q)
  /\ extract_pod_name "What is the status of the pod named 'example-pod'?"
     = Some "example-pod".
Proof.
  split; [exact extract_pod_name_some|]. split; [|reflexivity].
  intros q. rewrite extract_pod_name_direct.
  apply first_capture_none;
    [exact name_after_pod_sound | exact name_after_pod_complete].
Qed.

(** C7: deployment-name extraction on the query text is the first element
    of [re.findall] with the pattern of line 121; it returns [x] exactly
    when [x] is the capture at the leftmost place where the text reads
    "by", whitespace and a token of word characters, digits and hyphens
    (taken as far as it goes), and [None] exactly when there is no such
    place. On "Which pod is spawned by my-deployment?" it gives
    "my-deployment". *)
Theorem extract_deployment_name_first_match :
  (forall q x,
     extract_deployment_name q = Some x <-> FirstCapture DeploymentNameAt q x)
  /\ (forall q, extract_deployment_name q = None <-> NoMatch DeploymentNameAt q)
  /\ extract_deployment_name "Which pod is spawned by my-deployment?"
     = Some "my-deployment".
Proof.
  split; [exact extract_deployment_name_some|]. split; [|reflexivity].
  intros q. rewrite extract_deployment_name_direct.
  apply first_capture_none;
    [exact name_after_deployment_sound | exact name_after_deployment_complete].
Qed.

(* ================================================================== *)
(** * The dispatcher *)

Section Dispatcher.
Variable w : world.

Lemma bind_lift {A B} (r : result A) (k : A -> M B) :
  bind (lift r) k = match r with Ok a => k a | Raise e => raise e end.
Proof. destruct r as [a|e]; cbn; [now destruct (k a) | reflexivity]. Qed.

Lemma bind_ret {A B} (a : A) (k : A -> M B) : bind (ret a) k = k a.
Proof. cbn. now destruct (k a). Qed.

Lemma lift_chain_trace {A B} (r : result A) (k : A -> M B) :
  (forall a, trace (k a) = []) -> trace (bind (lift r) k) = [].
Proof. intros H. rewrite bind_lift. destruct r; [apply H | reflexivity]. Qed.

(** The classifier makes one call, to the completion service. *)
Lemma generate_mistral_response_trace (prompt : string) :
  trace (generate_mistral_response w prompt) = [CompletionPost prompt].
Proof.
  unfold generate_mistral_response, perform.
  cbn [bind]. destruct (requests_post w prompt) as [resp|e]; [|reflexivity].
  match goal with
  | |- trace (let (r, t') := ?m in _) = _ =>
      assert (T : trace m = []); [|destruct m as [r t']; cbn in T; now subst t']
  end.
  repeat (apply lift_chain_trace; intros).
  now destruct (py_strip _).
Qed.

(** What the dispatcher returns and calls once the classifier has
    answered. *)
Lemma process_query_classified (query : json) (raw : string) :
  classified w query raw ->
  outcome (process_query w query) =
    match outcome (dispatch w query raw) with
    | Ok a => Ok a
    | Raise e => Ok (error_answer e)
    end
  /\ trace (process_query w query) =
     CompletionPost (structured_prompt w query)
       :: trace (dispatch w query raw).
Proof.
  unfold classified, process_query, process_query_body. intros C.
  pose proof (generate_mistral_response_trace (structured_prompt w query)) as T.
  destruct (generate_mistral_response w (structured_prompt w query))
    as [r t]. cbn in C, T. subst r t. cbn [bind].
  destruct (dispatch w query raw) as [[a|e] t]; cbn;
    [split; reflexivity|].
  now rewrite app_nil_r.
Qed.

(** What the dispatcher returns when the classifier fails. *)
Lemma process_query_unclassified (query : json) (e : exn) :
  outcome (generate_mistral_response w (structured_prompt w query)) = Raise e ->
  outcome (process_query w query) = Ok (error_answer e).
Proof.
  unfold process_query, process_query_body. intros C.
  destruct (generate_mistral_response w (structured_prompt w query))
    as [r t]. cbn in C. subst r. reflexivity.
Qed.

(** The [if]/[elif] chain is the priority list. *)
Lemma dispatch_serve (query : json) (raw : string) :
  dispatch w query raw = serve w query (resolveIntent raw).
Proof.
  unfold dispatch, resolveIntent, canonical_phrases. cbn [find fst snd].
  repeat match goal with
         | |- context [contains ?p raw] => destruct (contains p raw)
         end; reflexivity.
Qed.

Lemma truthy_nonempty (x : string) : x <> "" -> truthy (Some x) = true.
Proof. destruct x; [now intros H; elim H | reflexivity]. Qed.

(** The pod-status branch on a query text, by what was extracted. *)
Lemma on_check_pod_status_text (q : string) :
  on_check_pod_status w (JStr q) =
  match extract_pod_name q with
  | Some x =>
      pod_status <- get_pod_status w x "default" ;;
      ret ("The status of the pod '" ++ x ++ "' is '"
             ++ str_or_none pod_status ++ "'.")
  | None => ret "Invalid pod name format in query."
  end.
Proof.
  unfold on_check_pod_status. cbn [re_findall]. rewrite bind_lift.
  fold (extract_pod_name q). cbv zeta.
  destruct (extract_pod_name q) as [x|] eqn:E; [|reflexivity].
  now rewrite (truthy_nonempty (extract_pod_name_nonempty _ E)).
Qed.

(** The deployment branch on a query text, by what was extracted. *)
Lemma on_list_pods_for_deployment_text (q : string) :
  on_list_pods_for_deployment w (JStr q) =
  match extract_deployment_name q with
  | Some x =>
      pod_names <- get_pods_by_deployment w x "default" ;;
      ret ("The pod(s) spawned by deployment '" ++ x ++ "' are: "
             ++ pod_names)
  | None => ret "Invalid deployment name format in query."
  end.
Proof.
  unfold on_list_pods_for_deployment. cbn [re_findall]. rewrite bind_lift.
  fold (extract_deployment_name q). cbv zeta.
  destruct (extract_deployment_name q) as [x|] eqn:E; [|reflexivity].
  now rewrite (truthy_nonempty (extract_deployment_name_nonempty _ E)).
Qed.

End Dispatcher.

(* ================================================================== *)
(** * Intent resolution *)

Section Find.
Variable A : Type.
Variable f : A -> bool.

Lemma find_first (l : list A) (e : A) :
  find f l = Some e <->
  exists before after,
    l = (before ++ e :: after)%list /\ f e = true
    /\ forall x, In x before -> f x = false.
Proof.
  induction l as [|a l IH]; cbn [find].
  - split; [discriminate|]. intros (b & a & E & _).
    destruct b; discriminate.
  - destruct (f a) eqn:Fa.
    + split.
      * intros H; inversion H; subst a. exists [], l. now repeat split.
      * intros (b & a' & E & Fe & Hb). destruct b as [|x b].
        -- cbn in E. now inversion E.
        -- cbn in E. inversion E; subst x.
           rewrite (Hb a (or_introl eq_refl)) in Fa. discriminate.
    + rewrite IH. split.
      * intros (b & a' & -> & Fe & Hb). exists (a :: b), a'.
        repeat split; [exact Fe|]. intros x [<-|Hx]; [exact Fa | now apply Hb].
      * intros (b & a' & E & Fe & Hb). destruct b as [|x b].
        -- cbn in E. inversion E; subst a. congruence.
        -- cbn in E. inversion E; subst x l. exists b, a'.
           repeat split; [exact Fe|]. intros y Hy. apply Hb. now right.
Qed.

Lemma find_nowhere (l : list A) :
  find f l = None <-> forall x, In x l -> f x = false.
Proof.
  induction l as [|a l IH]; cbn [find]; [now split|].
  destruct (f a) eqn:Fa.
  - split; [discriminate|]. intros H.
    rewrite (H a (or_introl eq_refl)) in Fa. discriminate.
  - rewrite IH. split.
    + intros H x [<-|Hx]; [exact Fa | now apply H].
    + intros H x Hx. apply H. now right.
Qed.
End Find.

Lemma resolveIntent_first (raw : string) (i : Intent) :
  resolveIntent raw = i <->
  FirstPhrase raw i \/ (i = Unknown /\ NoPhrase raw).
Proof.
  unfold resolveIntent, FirstPhrase, NoPhrase. split.
  - destruct (find _ canonical_phrases) as [[p j]|] eqn:F; cbn [snd].
    + intros <-. left. apply find_first in F.
      destruct F as (b & a & E & Fe & Hb). exists b, p, a.
      split; [exact E|]. split; [now apply contains_iff|].
      intros e He. apply contains_false_iff. now apply Hb.
    + intros <-. right. split; [reflexivity|].
      intros e He. apply contains_false_iff.
      exact (proj1 (find_nowhere _ _) F e He).
  - intros [(b & p & a & E & Hp & Hb)|[-> H]].
    + assert (F : find (fun e => contains (fst e) raw) canonical_phrases
                  = Some (p, i)).
      { apply find_first. exists b, a. split; [exact E|].
        split; [now apply contains_iff|].
        intros x Hx. apply contains_false_iff. now apply Hb. }
      now rewrite F.
    + assert (F : find (fun e => contains (fst e) raw) canonical_phrases
                  = None).
      { apply find_nowhere. intros x Hx. apply contains_false_iff.
        now apply H. }
      now rewrite F.
Qed.

(** C1: the [if]/[elif] chain of the dispatcher is the resolution by the
    six canonical phrases in the stated priority order: the branch taken
    is the one of the first phrase of the list contained in the
    classifier's text; a text with both "count nodes" and "check API
    server" (and none of the three earlier phrases) is served as
    CountNodes; and when no phrase is contained the dispatcher takes the
    Unknown branch, makes no further call and returns the apology. *)
Theorem dispatch_by_phrase_priority :
  (forall w query raw, dispatch w query raw = serve w query (resolveIntent raw))
  /\ (forall raw i,
        resolveIntent raw = i <->
        FirstPhrase raw i \/ (i = Unknown /\ NoPhrase raw))
  /\ (forall raw,
        Substring "count nodes" raw -> Substring "check API server" raw ->
        ~ Substring "count pods" raw -> ~ Substring "list all pods" raw ->
        ~ Substring "check pod status" raw ->
        resolveIntent raw = CountNodes)
  /\ resolveIntent "count nodes, then check API server" = CountNodes
  /\ (forall w query raw,
        classified w query raw -> NoPhrase raw ->
        outcome (process_query w query)
          = Ok "I'm sorry, I couldn't determine the action for this query."
        /\ trace (process_query w query)
           = [CompletionPost (structured_prompt w query)]).
Proof.
  split; [exact dispatch_serve|]. split; [exact resolveIntent_first|].
  split; [|split; [reflexivity|]].
  - intros raw Hn _ H1 H2 H3. apply resolveIntent_first. left.
    exists [("count pods", CountPods); ("list all pods", ListPods);
            ("check pod status", CheckPodStatus)], "count nodes",
           [("check API server", CheckApiServer);
            ("list pods for deployment", ListPodsForDeployment)].
    split; [reflexivity|]. split; [exact Hn|].
    intros e [<-|[<-|[<-|[]]]]; assumption.
  - intros w query raw C N.
    destruct (process_query_classified C) as [O T].
    assert (R : resolveIntent raw = Unknown).
    { apply resolveIntent_first. right. now split. }
    rewrite O, T, dispatch_serve, R. split; reflexivity.
Qed.

(* ================================================================== *)
(** * The failure policy of the dispatcher *)

Lemma process_query_returns (w : world) (query : json) :
  exists answer, outcome (process_query w query) = Ok answer.
Proof.
  unfold process_query.
  destruct (process_query_body w query) as [[a|e] t]; eexists; reflexivity.
Qed.

(* ================================================================== *)
(** * Queries that need an argument *)

(** C3: when the intent is CheckPodStatus (ListPodsForDeployment) and no
    pod name (deployment name) can be extracted from the query text, the
    dispatcher returns "Invalid pod name format in query." ("Invalid
    deployment name format in query.") and calls nothing but the
    classifier: no call goes to the gateway. *)
Theorem missing_argument_no_gateway_call :
  forall w q raw,
    classified w (JStr q) raw ->
    (resolveIntent raw = CheckPodStatus -> extract_pod_name q = None ->
     outcome (process_query w (JStr q))
       = Ok "Invalid pod name format in query."
     /\ no_gateway_call (trace (process_query w (JStr q))))
    /\ (resolveIntent raw = ListPodsForDeployment ->
        extract_deployment_name q = None ->
        outcome (process_query w (JStr q))
          = Ok "Invalid deployment name format in query."
        /\ no_gateway_call (trace (process_query w (JStr q)))).
Proof.
  intros w q raw C. destruct (process_query_classified C) as [O T].
  split; intros R E; rewrite O, T, dispatch_serve, R; cbn [serve].
  - rewrite on_check_pod_status_text, E. split; [reflexivity|].
    repeat constructor.
  - rewrite on_list_pods_for_deployment_text, E. split; [reflexivity|].
    repeat constructor.
Qed.

Lemma missing_argument_no_gateway_call_witness :
  let w := Sample.world_of (Ok (Sample.reply "check pod status"))
             (Ok []) Sample.not_found in
  (classified w (JStr "How is my pod doing?") "check pod status"
   /\ resolveIntent "check pod status" = CheckPodStatus
   /\ extract_pod_name "How is my pod doing?" = None)
  /\ outcome (process_query w (JStr "How is my pod doing?"))
     = Ok "Invalid pod name format in query."
  /\ no_gateway_call (trace (process_query w (JStr "How is my pod doing?"))).
Proof.
  intros w. split; [repeat split|].
  apply (proj1 (@missing_argument_no_gateway_call w "How is my pod doing?"
                  "check pod status" eq_refl));
    reflexivity.
Defined.

(** The pod-status helper never raises: a failed lookup becomes one of
    three fixed sentences. *)
Lemma get_pod_status_failed (w : world) (name ns : string) (e : exn) :
  read_namespaced_pod w name ns = Raise e ->
  get_pod_status w name ns =
  (Ok (Some match e with
            | ApiException (Some 404%Z) _ => "Pod not found."
            | ApiException _ _ =>
                "An error occurred while retrieving pod status."
            | _ => "An unexpected error occurred while retrieving pod status."
            end),
   [ReadNamespacedPod name ns]).
Proof.
  intros H. unfold get_pod_status, perform. rewrite H. cbn [bind try_catch].
  destruct e as [[[|[]|]|] text|errors text|cls text]; try reflexivity.
  repeat (destruct p as [p|p|]; try reflexivity).
Qed.

(** C4: for a CheckPodStatus query with extracted pod name [x] whose
    lookup fails with status 404, the answer is exactly "The status of the
    pod 'x' is 'Pod not found.'.": the not-found sentence stands where the
    phase would. *)
Theorem pod_not_found_answer :
  forall w q raw x text,
    classified w (JStr q) raw ->
    resolveIntent raw = CheckPodStatus ->
    extract_pod_name q = Some x ->
    read_namespaced_pod w x "default"
      = Raise (ApiException (Some 404%Z) text) ->
    outcome (process_query w (JStr q))
      = Ok ("The status of the pod '" ++ x ++ "' is 'Pod not found.'.")
    /\ trace (process_query w (JStr q))
       = [CompletionPost (structured_prompt w (JStr q));
          ReadNamespacedPod x "default"].
Proof.
  intros w q raw x text C R E H.
  destruct (process_query_classified C) as [O T].
  rewrite O, T, dispatch_serve, R. cbn [serve].
  rewrite on_check_pod_status_text, E, (get_pod_status_failed _ _ _ H).
  split; reflexivity.
Qed.

Lemma pod_not_found_answer_witness :
  let w := Sample.world_of (Ok (Sample.reply "check pod status"))
             (Ok []) Sample.not_found in
  let q := "What is the status of the pod named 'example-pod'?" in
  (classified w (JStr q) "check pod status"
   /\ resolveIntent "check pod status" = CheckPodStatus
   /\ extract_pod_name q = Some "example-pod"
   /\ read_namespaced_pod w "example-pod" "default" = Sample.not_found)
  /\ outcome (process_query w (JStr q))
     = Ok "The status of the pod 'example-pod' is 'Pod not found.'."
  /\ trace (process_query w (JStr q))
     = [CompletionPost (structured_prompt w (JStr q));
        ReadNamespacedPod "example-pod" "default"].
Proof.
  intros w q. split; [repeat split|].
  apply (@pod_not_found_answer w q "check pod status" "example-pod"
           "(404) Reason: Not Found");
    reflexivity.
Defined.

(** C10: for a CheckPodStatus query with extracted pod name [x] whose
    lookup fails with anything but status 404, the body of the dispatcher
    returns normally (nothing reaches its catch-all) and the answer is
    "The status of the pod 'x' is 'An error occurred while retrieving pod
    status.'." for an API exception, the "unexpected error" variant for any
    other exception; it is never the generic error answer. *)
Theorem pod_lookup_failure_swallowed :
  forall w q raw x e,
    classified w (JStr q) raw ->
    resolveIntent raw = CheckPodStatus ->
    extract_pod_name q = Some x ->
    read_namespaced_pod w x "default" = Raise e ->
    (forall text, e <> ApiException (Some 404%Z) text) ->
    exists answer,
      outcome (process_query_body w (JStr q)) = Ok answer
      /\ outcome (process_query w (JStr q)) = Ok answer
      /\ answer =
         status_answer x
           match e with
           | ApiException _ _ =>
               "An error occurred while retrieving pod status."
           | _ => "An unexpected error occurred while retrieving pod status."
           end
      /\ forall e', answer <> error_answer e'.
Proof.
  intros w q raw x e C R E H N.
  destruct (process_query_classified C) as [O _].
  assert (B : outcome (process_query_body w (JStr q))
              = outcome (dispatch w (JStr q) raw)).
  { unfold process_query_body. unfold classified in C.
    destruct (generate_mistral_response w (structured_prompt w (JStr q)))
      as [r t]. cbn in C. subst r. cbn [bind].
    now destruct (dispatch w (JStr q) raw). }
  rewrite O, B, dispatch_serve, R. cbn [serve].
  rewrite on_check_pod_status_text, E, (get_pod_status_failed _ _ _ H).
  eexists. split; [reflexivity|]. split; [reflexivity|]. split.
  - destruct e as [[[|[]|]|] text|errors text|cls text]; try reflexivity.
    repeat (destruct p as [p|p|]; try reflexivity).
    now elim (N text).
  - intros e'. unfold status_answer, error_answer. cbn. discriminate.
Qed.

Lemma pod_lookup_failure_swallowed_witness :
  let w := Sample.world_of (Ok (Sample.reply "check pod status"))
             (Ok []) Sample.forbidden in
  let q := "What is the status of the pod named 'example-pod'?" in
  (classified w (JStr q) "check pod status"
   /\ resolveIntent "check pod status" = CheckPodStatus
   /\ extract_pod_name q = Some "example-pod"
   /\ read_namespaced_pod w "example-pod" "default" = Sample.forbidden)
  /\ exists answer,
       outcome (process_query_body w (JStr q)) = Ok answer
       /\ outcome (process_query w (JStr q)) = Ok answer
       /\ answer =
          status_answer "example-pod"
            "An error occurred while retrieving pod status."
       /\ forall e', answer <> error_answer e'.
Proof.
  intros w q. split; [repeat split|].
  apply (@pod_lookup_failure_swallowed w q "check pod status" "example-pod"
           (ApiException (Some 403%Z) "(403) Reason: Forbidden"));
    try reflexivity.
  intros text H. discriminate H.
Defined.

(* ================================================================== *)
(** * Pods of a deployment *)

(** The deployment helper never raises, and what it returns on success is
    the deployment's own name. *)
Lemma get_pods_by_deployment_result (w : world) (name ns : string) :
  get_pods_by_deployment w name ns =
  (Ok match list_namespaced_pod w ns (Some ("app=" ++ name)) with
      | Ok (_ :: _) => name
      | Ok [] => "No pods found for deployment '" ++ name ++ "'."
      | Raise (ApiException _ _) =>
          "An error occurred while retrieving pods for the deployment."
      | Raise _ =>
          "An unexpected error occurred while retrieving pods for the deployment."
      end,
   [ListNamespacedPod ns (Some ("app=" ++ name))]).
Proof.
  unfold get_pods_by_deployment, perform.
  destruct (list_namespaced_pod w ns (Some ("app=" ++ name)))
    as [[|p pods]|[status text|errors text|cls text]]; reflexivity.
Qed.

(** C5, as the code has it: for a ListPodsForDeployment query with
    extracted deployment name [name] the dispatcher lists the pods of the
    default namespace with label selector app=name and returns "The pod(s)
    spawned by deployment 'name' are: " followed by the deployment name
    itself when the listing is not empty, by "No pods found for deployment
    'name'." when it is empty, and by a fixed error sentence when the
    listing fails. *)
Theorem deployment_answer_names_the_deployment :
  forall w q raw name,
    classified w (JStr q) raw ->
    resolveIntent raw = ListPodsForDeployment ->
    extract_deployment_name q = Some name ->
    outcome (process_query w (JStr q))
      = Ok ("The pod(s) spawned by deployment '" ++ name ++ "' are: "
              ++ match list_namespaced_pod w "default" (Some ("app=" ++ name))
                 with
                 | Ok (_ :: _) => name
                 | Ok [] => "No pods found for deployment '" ++ name ++ "'."
                 | Raise (ApiException _ _) =>
                     "An error occurred while retrieving pods for the deployment."
                 | Raise _ =>
                     "An unexpected error occurred while retrieving pods for the deployment."
                 end)
    /\ trace (process_query w (JStr q))
       = [CompletionPost (structured_prompt w (JStr q));
          ListNamespacedPod "default" (Some ("app=" ++ name))].
Proof.
  intros w q raw name C R E.
  destruct (process_query_classified C) as [O T].
  rewrite O, T, dispatch_serve, R. cbn [serve].
  rewrite on_list_pods_for_deployment_text, E, get_pods_by_deployment_result.
  split; reflexivity.
Qed.

Lemma deployment_answer_names_the_deployment_witness :
  let w := Sample.world_of (Ok (Sample.reply "list pods for deployment"))
             (Ok Sample.deployment_pods) Sample.not_found in
  let q := "Which pod is spawned by my-deployment?" in
  (classified w (JStr q) "list pods for deployment"
   /\ resolveIntent "list pods for deployment" = ListPodsForDeployment
   /\ extract_deployment_name q = Some "my-deployment")
  /\ outcome (process_query w (JStr q))
     = Ok "The pod(s) spawned by deployment 'my-deployment' are: my-deployment"
  /\ trace (process_query w (JStr q))
     = [CompletionPost (structured_prompt w (JStr q));
        ListNamespacedPod "default" (Some "app=my-deployment")].
Proof.
  intros w q. split; [repeat split|].
  apply (@deployment_answer_names_the_deployment w q
           "list pods for deployment" "my-deployment");
    reflexivity.
Defined.

(** C5 as stated fails: with two pods found for "my-deployment", the answer
    does not list the pods found; it repeats the deployment name. *)
Lemma deployment_answer_is_not_the_pods_found :
  let w := Sample.world_of (Ok (Sample.reply "list pods for deployment"))
             (Ok Sample.deployment_pods) Sample.not_found in
  let q := "Which pod is spawned by my-deployment?" in
  classified w (JStr q) "list pods for deployment"
  /\ resolveIntent "list pods for deployment" = ListPodsForDeployment
  /\ extract_deployment_name q = Some "my-deployment"
  /\ list_namespaced_pod w "default" (Some "app=my-deployment")
     = Ok Sample.deployment_pods
  /\ outcome (process_query w (JStr q))
     <> Ok (pods_found_answer "my-deployment" Sample.deployment_pods).
Proof.
  intros w q. repeat split. vm_compute. discriminate.
Qed.

(* ================================================================== *)
(** * The classifier's reading of the completion *)

(** With a top choice that carries a text content, the classifier returns
    that content, stripped. *)
Lemma generate_mistral_response_content (w : world) (prompt : string)
    (resp : response) (others : list json) (content : string) :
  requests_post w prompt = Ok resp ->
  raise_for_status resp = Ok tt ->
  json_body resp
    = Ok (JObj [("choices",
                 JArr (JObj [("message", JObj [("content", JStr content)])]
                         :: others))]) ->
  outcome (generate_mistral_response w prompt) = Ok (strip content).
Proof.
  intros P S J. unfold generate_mistral_response, perform.
  rewrite P. cbn [bind]. rewrite S, J. reflexivity.
Qed.

(** Without the "choices" key, or with a first choice without "message"
    or a message without "content", the classifier returns the empty
    string. *)
Lemma generate_mistral_response_missing_key (w : world) (prompt : string)
    (resp : response) (data : json) :
  requests_post w prompt = Ok resp ->
  raise_for_status resp = Ok tt ->
  json_body resp = Ok data ->
  data = JObj []
  \/ (exists others, data = JObj [("choices", JArr (JObj [] :: others))])
  \/ (exists others,
        data = JObj [("choices", JArr (JObj [("message", JObj [])] :: others))]) ->
  outcome (generate_mistral_response w prompt) = Ok "".
Proof.
  intros P S J D. unfold generate_mistral_response, perform.
  rewrite P. cbn [bind]. rewrite S, J.
  destruct D as [->|[(others & ->)|(others & ->)]]; reflexivity.
Qed.

(** C8 fails on a response whose list of choices is empty: the classifier
    raises [IndexError] instead of returning the empty string, and the
    dispatcher answers with the generated error. The same happens for
    every prompt. *)
Theorem generate_mistral_response_empty_choices :
  let w := Sample.world_of (Ok Sample.reply_without_choices)
             (Ok []) Sample.not_found in
  (forall prompt,
     outcome (generate_mistral_response w prompt)
       = Raise (PyError "IndexError" "list index out of range"))
  /\ (forall query,
        outcome (process_query w query)
          = Ok "An error occurred while processing your query: list index out of range").
Proof.
  intros w. split.
  - intros prompt. reflexivity.
  - intros query. rewrite (@process_query_unclassified w query
      (PyError "IndexError" "list index out of range")); reflexivity.
Qed.

(* ================================================================== *)
(** * The endpoint *)

(** A body that is JSON but not an object has no [get]: the reply is the
    generic status 500. *)
Lemma non_object_body_is_server_error (w : world) (req : request) (v : json) :
  get_json req = Ok v ->
  (forall items, v <> JObj items) ->
  outcome (create_query w req)
    = Ok (500%Z, JObj [("error", JStr "An unexpected error occurred.")]).
Proof.
  intros G N. unfold create_query. rewrite G, bind_lift.
  destruct v; try reflexivity. now elim (N items).
Qed.

(* ================================================================== *)
(** * The gateway helpers *)

Lemma get_pod_status_found (w : world) (name ns : string) (p : pod) :
  read_namespaced_pod w name ns = Ok p ->
  get_pod_status w name ns =
  (Ok match status p with
      | Some st => phase st
      | None => Some "An unexpected error occurred while retrieving pod status."
      end,
   [ReadNamespacedPod name ns]).
Proof.
  intros H. unfold get_pod_status, perform, pod_status_phase. rewrite H.
  cbn [bind lift]. now destruct (status p).
Qed.

Lemma get_pod_status_total (w : world) (name ns : string) :
  exists v, get_pod_status w name ns = (Ok v, [ReadNamespacedPod name ns]).
Proof.
  destruct (read_namespaced_pod w name ns) as [p|e] eqn:H.
  - eexists. apply (get_pod_status_found _ _ _ H).
  - eexists. apply (get_pod_status_failed _ _ _ H).
Qed.

Lemma is_api_server_accessible_result (w : world) :
  is_api_server_accessible w =
  (Ok (match get_api_resources w with Ok _ => "Yes" | Raise _ => "No" end),
   [GetApiResources]).
Proof.
  unfold is_api_server_accessible, perform.
  now destruct (get_api_resources w) as [[]|e].
Qed.

(** The three helpers that wrap their cluster call in [try] never raise,
    whatever the cluster does, and make exactly that one call; the probe
    answers "Yes" or "No" and nothing else. *)
Theorem guarded_helpers_never_raise :
  forall w name ns,
    (exists v, get_pod_status w name ns
               = (Ok v, [ReadNamespacedPod name ns]))
    /\ (exists v, get_pods_by_deployment w name ns
                  = (Ok v, [ListNamespacedPod ns (Some ("app=" ++ name))]))
    /\ (is_api_server_accessible w = (Ok "Yes", [GetApiResources])
        \/ is_api_server_accessible w = (Ok "No", [GetApiResources])).
Proof.
  intros w name ns. split; [apply get_pod_status_total|]. split.
  - eexists. apply get_pods_by_deployment_result.
  - rewrite is_api_server_accessible_result.
    destruct (get_api_resources w); [now left | now right].
Qed.

(* ================================================================== *)
(** * The branches without argument *)

(** With the intent CountNodes and a node listing of [n] nodes, the
    answer is "There are n nodes in the cluster." whatever the query is
    (a text or not), after the completion call and one node listing. *)
Theorem count_nodes_answer :
  forall w query raw nodes,
    classified w query raw ->
    resolveIntent raw = CountNodes ->
    list_node w = Ok nodes ->
    process_query w query
    = (Ok ("There are " ++ of_nat (List.length nodes)
             ++ " nodes in the cluster."),
       [CompletionPost (structured_prompt w query); ListNode]).
Proof.
  intros w query raw nodes C R H.
  destruct (process_query_classified C) as [O T].
  rewrite dispatch_serve, R in O, T. cbn [serve] in O, T.
  unfold on_count_nodes, get_node_count, perform in O, T. rewrite H in O, T.
  destruct (process_query w query) as [r t]. cbn in O, T. now subst.
Qed.

Lemma count_nodes_answer_witness :
  let w := Sample.world_of (Ok (Sample.reply "count nodes"))
             (Ok []) Sample.not_found in
  let query := JStr "How many nodes are there in the cluster?" in
  (classified w query "count nodes"
   /\ resolveIntent "count nodes" = CountNodes
   /\ list_node w = Ok ["minikube"])
  /\ process_query w query
     = (Ok "There are 1 nodes in the cluster.",
        [CompletionPost (structured_prompt w query); ListNode]).
Proof.
  intros w query. split; [repeat split|].
  apply (@count_nodes_answer w query "count nodes" ["minikube"]); reflexivity.
Defined.





(** With the intent CheckApiServer the answer is "Yes" when the probe of
    the API resources succeeds and "No" when it raises anything; a failing
    probe never gives the generated-error answer. *)
Theorem check_api_server_answer :
  forall w query raw,
    classified w query raw ->
    resolveIntent raw = CheckApiServer ->
    process_query w query
    = (Ok (match get_api_resources w with Ok _ => "Yes" | Raise _ => "No" end),
       [CompletionPost (structured_prompt w query); GetApiResources]).
Proof.
  intros w query raw C R.
  destruct (process_query_classified C) as [O T].
  rewrite dispatch_serve, R in O, T. cbn [serve] in O, T.
  unfold on_check_api_server in O, T.
  rewrite is_api_server_accessible_result in O, T.
  destruct (process_query w query) as [r t]. cbn in O, T. now subst.
Qed.

Lemma check_api_server_answer_witness :
  let w := Sample.world_of (Ok (Sample.reply "check API server"))
             (Ok []) Sample.not_found in
  let query := JStr "Is the API server accessible?" in
  (classified w query "check API server"
   /\ resolveIntent "check API server" = CheckApiServer)
  /\ process_query w query
     = (Ok "Yes",
        [CompletionPost (structured_prompt w query); GetApiResources]).
Proof.
  intros w query. split; [repeat split|].
  apply (@check_api_server_answer w query "check API server"); reflexivity.
Defined.

(** For a CheckPodStatus query with extracted pod name [x] whose lookup
    succeeds, the answer carries the phase of the pod; a pod with a status
    but no phase is reported with the status 'None', and a pod without
    status with the helper's "unexpected error" sentence. *)
Theorem pod_phase_answer :
  forall w q raw x p,
    classified w (JStr q) raw ->
    resolveIntent raw = CheckPodStatus ->
    extract_pod_name q = Some x ->
    read_namespaced_pod w x "default" = Ok p ->
    process_query w (JStr q)
    = (Ok (status_answer x (looked_up_status p)),
       [CompletionPost (structured_prompt w (JStr q));
        ReadNamespacedPod x "default"]).
Proof.
  intros w q raw x p C R E H.
  destruct (process_query_classified C) as [O T].
  rewrite dispatch_serve, R in O, T. cbn [serve] in O, T.
  rewrite on_check_pod_status_text, E, (get_pod_status_found _ _ _ H) in O, T.
  destruct (process_query w (JStr q)) as [r t]. cbn in O, T. subst r t.
  unfold looked_up_status. destruct (status p) as [[[text|]]|]; reflexivity.
Qed.

Lemma pod_phase_answer_witness :
  let w := Sample.world_of (Ok (Sample.reply "check pod status")) (Ok [])
             (Ok {| metadata_name := "example-pod"; status := None |}) in
  let q := "What is the status of the pod named 'example-pod'?" in
  (classified w (JStr q) "check pod status"
   /\ resolveIntent "check pod status" = CheckPodStatus
   /\ extract_pod_name q = Some "example-pod")
  /\ process_query w (JStr q)
     = (Ok ("The status of the pod 'example-pod' is "
              ++ "'An unexpected error occurred while retrieving pod status.'."),
        [CompletionPost (structured_prompt w (JStr q));
         ReadNamespacedPod "example-pod" "default"]).
Proof.
  intros w q. split; [repeat split|].
  apply (@pod_phase_answer w q "check pod status" "example-pod"
           {| metadata_name := "example-pod"; status := None |});
    reflexivity.
Defined.

(* ================================================================== *)
(** * The classifier *)

Lemma rstrip_start (s : string) :
  starts_with_char is_space s = false ->
  starts_with_char is_space (rstrip s) = false.
Proof.
  destruct s as [|c s]; [reflexivity|]. cbn [rstrip starts_with_char].
  intros H. destruct (rstrip s); [now rewrite H | exact H].
Qed.

Lemma rstrip_end (s : string) : ends_with_char is_space (rstrip s) = false.
Proof.
  unfold ends_with_char. induction s as [|c s IH]; [reflexivity|].
  cbn [rstrip]. destruct (rstrip s) as [|d r].
  - destruct (is_space c) eqn:E; [reflexivity | exact E].
  - exact IH.
Qed.

Lemma strip_trimmed (s : string) :
  starts_with_char is_space (strip s) = false
  /\ ends_with_char is_space (strip s) = false.
Proof.
  unfold strip, lstrip. split; [|apply rstrip_end].
  apply rstrip_start, drop_while_stops.
Qed.

Lemma rstrip_margin (s : string) :
  exists after, s = rstrip s ++ after /\ all_chars is_space after = true.
Proof.
  induction s as [|c s (after & E & A)]; [now exists ""|].
  cbn [rstrip]. destruct (rstrip s) as [|d r].
  - cbn in E. subst s. destruct (is_space c) eqn:Sc.
    + exists (String c after). split; [reflexivity|]. cbn. now rewrite Sc.
    + exists after. now split.
  - exists after. split; [|exact A].
    change (String c (String d r) ++ after) with (String c (String d r ++ after)).
    now rewrite <- E.
Qed.

(** [strip] removes a margin of whitespace on each side and nothing
    else. *)
Lemma strip_margins (s : string) :
  exists before after,
    s = before ++ strip s ++ after
    /\ all_chars is_space before = true
    /\ all_chars is_space after = true.
Proof.
  unfold strip, lstrip.
  destruct (rstrip_margin (drop_while is_space s)) as (after & E & A).
  exists (take_while is_space s), after. split; [|split].
  - rewrite <- E. now rewrite take_drop_while.
  - apply all_chars_take_while.
  - exact A.
Qed.

Lemma bind_lift_ok {A B} (r : result A) (k : A -> M B) (b : B) :
  outcome (bind (lift r) k) = Ok b ->
  exists a, r = Ok a /\ outcome (k a) = Ok b.
Proof.
  rewrite bind_lift. destruct r as [a|e]; [|discriminate].
  intros H. now exists a.
Qed.

Lemma generate_mistral_response_ok (w : world) (prompt raw : string) :
  outcome (generate_mistral_response w prompt) = Ok raw ->
  exists content, raw = strip content.
Proof.
  unfold generate_mistral_response, perform. cbn [bind].
  destruct (requests_post w prompt) as [resp|e]; [|discriminate].
  match goal with
  | |- outcome (let (r, t') := ?m in _) = _ -> _ =>
      intros H; assert (H' : outcome m = Ok raw)
        by (destruct m; exact H); clear H
  end.
  apply bind_lift_ok in H' as (_ & _ & H).
  apply bind_lift_ok in H as (data & _ & H).
  apply bind_lift_ok in H as (choices & _ & H).
  apply bind_lift_ok in H as (first & _ & H).
  apply bind_lift_ok in H as (message & _ & H).
  apply bind_lift_ok in H as (content & _ & H).
  destruct content; try discriminate. cbn in H. inversion H. now eexists.
Qed.

(** Whatever the completion service sends, a text the classifier returns
    has no whitespace at its start or at its end. *)
Theorem classifier_text_is_trimmed :
  forall w prompt raw,
    outcome (generate_mistral_response w prompt) = Ok raw ->
    starts_with_char is_space raw = false
    /\ ends_with_char is_space raw = false.
Proof.
  intros w prompt raw H.
  destruct (generate_mistral_response_ok _ _ H) as (content & ->).
  apply strip_trimmed.
Qed.

Lemma classifier_text_is_trimmed_witness :
  let w := Sample.world_of (Ok (Sample.reply "   check pod status  "))
             (Ok []) Sample.not_found in
  outcome (generate_mistral_response w "any prompt") = Ok "check pod status"
  /\ starts_with_char is_space "check pod status" = false
  /\ ends_with_char is_space "check pod status" = false.
Proof.
  intros w. split; [reflexivity|].
  apply (@classifier_text_is_trimmed w "any prompt" "check pod status").
  reflexivity.
Defined.

(** The classifier reads the "content" of the "message" of the first
    choice only: with a text there, it returns that text stripped,
    whatever the other choices and the other keys are. *)
Theorem classifier_reads_first_choice :
  forall w prompt resp items first others message content,
    requests_post w prompt = Ok resp ->
    raise_for_status resp = Ok tt ->
    json_body resp = Ok (JObj items) ->
    lookup "choices" items = Some (JArr (JObj first :: others)) ->
    lookup "message" first = Some (JObj message) ->
    lookup "content" message = Some (JStr content) ->
    generate_mistral_response w prompt
    = (Ok (strip content), [CompletionPost prompt])
    /\ exists before after,
         content = before ++ strip content ++ after
         /\ all_chars is_space before = true
         /\ all_chars is_space after = true.
Proof.
  intros w prompt resp items first others message content P S J C Ms Ct.
  split; [|apply strip_margins].
  unfold generate_mistral_response, perform. rewrite P. cbn [bind].
  rewrite S, J. cbn [lift bind py_get]. rewrite C. cbn [py_index0 py_get].
  rewrite Ms. cbn [py_get]. rewrite Ct. reflexivity.
Qed.

Lemma classifier_reads_first_choice_witness :
  let first := [("index", JInt 0);
                ("message", JObj [("role", JStr "assistant");
                                  ("content", JStr " count nodes ")])] in
  let second := JObj [("message", JObj [("content", JStr "count pods")])] in
  let items := [("id", JStr "cmpl-1");
                ("choices", JArr [JObj first; second])] in
  let resp := {| raise_for_status := Ok tt; json_body := Ok (JObj items) |} in
  let w := Sample.world_of (Ok resp) (Ok []) Sample.not_found in
  generate_mistral_response w "any prompt"
  = (Ok "count nodes", [CompletionPost "any prompt"])
  /\ exists before after,
       " count nodes " = before ++ "count nodes" ++ after
       /\ all_chars is_space before = true
       /\ all_chars is_space after = true.
Proof.
  intros first second items resp w.
  apply (@classifier_reads_first_choice w "any prompt" resp items first
           [second]
           [("role", JStr "assistant"); ("content", JStr " count nodes ")]
           " count nodes ");
    reflexivity.
Defined.

(** When the decoded object has no "choices" key, or its first choice no
    "message" key, or that message no "content" key, the classifier
    returns the empty string. *)
Theorem classifier_missing_key_gives_empty :
  forall w prompt resp items,
    requests_post w prompt = Ok resp ->
    raise_for_status resp = Ok tt ->
    json_body resp = Ok (JObj items) ->
    (lookup "choices" items = None
     \/ (exists first others,
           lookup "choices" items = Some (JArr (JObj first :: others))
           /\ (lookup "message" first = None
               \/ exists message,
                    lookup "message" first = Some (JObj message)
                    /\ lookup "content" message = None))) ->
    generate_mistral_response w prompt = (Ok "", [CompletionPost prompt]).
Proof.
  intros w prompt resp items P S J D.
  unfold generate_mistral_response, perform. rewrite P. cbn [bind].
  rewrite S, J. cbn [lift bind py_get].
  destruct D as [C|(first & others & C & [Ms|(message & Ms & Ct)])];
    rewrite C; cbn [py_index0 py_get lookup String.eqb Ascii.eqb Bool.eqb];
    try reflexivity.
  - rewrite Ms. reflexivity.
  - rewrite Ms. cbn [py_get]. rewrite Ct. reflexivity.
Qed.

Lemma classifier_missing_key_gives_empty_witness :
  let items := [("choices", JArr [JObj [("finish_reason", JStr "length")]])] in
  let resp := {| raise_for_status := Ok tt; json_body := Ok (JObj items) |} in
  let w := Sample.world_of (Ok resp) (Ok []) Sample.not_found in
  generate_mistral_response w "any prompt"
  = (Ok "", [CompletionPost "any prompt"]).
Proof.
  intros items resp w.
  apply (@classifier_missing_key_gives_empty w "any prompt" resp items);
    try reflexivity.
  right. exists [("finish_reason", JStr "length")], []. split; [reflexivity|].
  now left.
Defined.

(** A failure of the completion service is not swallowed by the
    classifier: when the request itself raises, when the status check
    raises, or when the body does not decode, the classifier raises that
    same exception, after its one call. *)
Theorem classifier_propagates_failure :
  forall w prompt e,
    (requests_post w prompt = Raise e
     \/ exists resp,
          requests_post w prompt = Ok resp
          /\ (raise_for_status resp = Raise e
              \/ (raise_for_status resp = Ok tt
                  /\ json_body resp = Raise e))) ->
    generate_mistral_response w prompt = (Raise e, [CompletionPost prompt]).
Proof.
  intros w prompt e H. unfold generate_mistral_response, perform.
  destruct H as [P|(resp & P & [S|[S J]])]; rewrite P; cbn [bind];
    [reflexivity| |]; rewrite S; [reflexivity|]. now rewrite J.
Qed.

Lemma classifier_propagates_failure_witness :
  let e := PyError "HTTPError" "401 Client Error: Unauthorized" in
  let resp := {| raise_for_status := Raise e; json_body := Ok JNull |} in
  let w := Sample.world_of (Ok resp) (Ok []) Sample.not_found in
  generate_mistral_response w "any prompt"
  = (Raise e, [CompletionPost "any prompt"]).
Proof.
  intros e resp w.
  apply (@classifier_propagates_failure w "any prompt" e).
  right. exists resp. split; [reflexivity|]. now left.
Defined.

(** When the first choice's message has a "content" that is not a text
    (a null, as with a tool call), the classifier raises [AttributeError]
    for the missing [strip], and the dispatcher answers with the generated
    error carrying that detail. *)
Theorem classifier_content_not_text :
  forall w query resp items first others message v,
    requests_post w (structured_prompt w query) = Ok resp ->
    raise_for_status resp = Ok tt ->
    json_body resp = Ok (JObj items) ->
    lookup "choices" items = Some (JArr (JObj first :: others)) ->
    lookup "message" first = Some (JObj message) ->
    lookup "content" message = Some v ->
    (forall text, v <> JStr text) ->
    outcome (generate_mistral_response w (structured_prompt w query))
      = Raise (no_attribute v "strip")
    /\ outcome (process_query w query)
       = Ok ("An error occurred while processing your query: '"
               ++ type_name v ++ "' object has no attribute 'strip'").
Proof.
  intros w query resp items first others message v P S J C Ms Ct N.
  assert (G : outcome (generate_mistral_response w (structured_prompt w query))
              = Raise (no_attribute v "strip")).
  { unfold generate_mistral_response, perform. rewrite P. cbn [bind].
    rewrite S, J. cbn [lift bind py_get]. rewrite C. cbn [py_index0 py_get].
    rewrite Ms. cbn [py_get]. rewrite Ct.
    destruct v; try reflexivity. now elim (N s). }
  split; [exact G|]. now rewrite (process_query_unclassified _ _ G).
Qed.

Lemma classifier_content_not_text_witness :
  let message := [("content", JNull); ("tool_calls", JArr [])] in
  let first := [("message", JObj message)] in
  let items := [("choices", JArr [JObj first])] in
  let resp := {| raise_for_status := Ok tt; json_body := Ok (JObj items) |} in
  let w := Sample.world_of (Ok resp) (Ok []) Sample.not_found in
  let query := JStr "How many nodes are there in the cluster?" in
  outcome (generate_mistral_response w (structured_prompt w query))
    = Raise (no_attribute JNull "strip")
  /\ outcome (process_query w query)
     = Ok ("An error occurred while processing your query: "
             ++ "'NoneType' object has no attribute 'strip'").
Proof.
  intros message first items resp w query.
  apply (@classifier_content_not_text w query resp items first [] message
           JNull);
    try reflexivity.
  intros text H. discriminate H.
Defined.

(* ================================================================== *)
(** * What the dispatcher calls *)

Lemma process_query_trace (w : world) (query : json) :
  trace (process_query w query) = [CompletionPost (structured_prompt w query)]
  \/ exists raw,
       classified w query raw
       /\ trace (process_query w query)
          = CompletionPost (structured_prompt w query)
              :: trace (dispatch w query raw).
Proof.
  destruct (outcome (generate_mistral_response w (structured_prompt w query)))
    as [raw|e] eqn:G.
  - right. exists raw. split; [exact G|].
    apply (process_query_classified G).
  - left. unfold process_query, process_query_body.
    pose proof (generate_mistral_response_trace w (structured_prompt w query))
      as T.
    destruct (generate_mistral_response w (structured_prompt w query))
      as [r t]. cbn in G, T. now subst.
Qed.

Lemma dispatch_calls (w : world) (query : json) (raw : string) :
  trace (dispatch w query raw) = []
  \/ exists c, trace (dispatch w query raw) = [c] /\ expected_call query c.
Proof.
  rewrite dispatch_serve. destruct (resolveIntent raw); cbn [serve].
  - right. exists (ListNamespacedPod "default" None). split; [|now left].
    unfold on_count_pods, get_pods, perform.
    now destruct (list_namespaced_pod w "default" None).
  - right. exists (ListNamespacedPod "default" None). split; [|now left].
    unfold on_list_all_pods, get_pods, perform.
    now destruct (list_namespaced_pod w "default" None).
  - destruct query as [| | | |q| |]; try (now left).
    rewrite on_check_pod_status_text.
    destruct (extract_pod_name q) as [x|] eqn:E; [|now left].
    right. exists (ReadNamespacedPod x "default").
    destruct (get_pod_status_total w x "default") as (v & ->).
    split; [reflexivity|]. right; right; right; left. now exists q, x.
  - right. exists ListNode. split; [|now right; left].
    unfold on_count_nodes, get_node_count, perform.
    now destruct (list_node w).
  - right. exists GetApiResources. split; [|now right; right; left].
    unfold on_check_api_server. now rewrite is_api_server_accessible_result.
  - destruct query as [| | | |q| |]; try (now left).
    rewrite on_list_pods_for_deployment_text.
    destruct (extract_deployment_name q) as [d|] eqn:E; [|now left].
    right. exists (ListNamespacedPod "default" (Some ("app=" ++ d))).
    rewrite get_pods_by_deployment_result.
    split; [reflexivity|]. right; right; right; right. now exists q, d.
  - now left.
Qed.

(** For every world and every query the dispatcher first posts the
    structured prompt of the query to the completion service and then
    makes at most one call to the cluster; that call is a listing of the
    default namespace or of the nodes, the API probe, the lookup in the
    default namespace of the pod named in the query text, or the listing
    by the label app= of the deployment named in the query text. *)
Theorem process_query_calls :
  forall w query,
    exists rest,
      trace (process_query w query)
      = CompletionPost (structured_prompt w query) :: rest
      /\ (rest = [] \/ exists c, rest = [c] /\ expected_call query c).
Proof.
  intros w query.
  destruct (process_query_trace w query) as [T|(raw & _ & T)].
  - exists []. split; [exact T | now left].
  - exists (trace (dispatch w query raw)). split; [exact T|].
    apply dispatch_calls.
Qed.

(* ================================================================== *)
(** * What is extracted *)

Lemma first_capture_inside (At : string -> string -> Prop) (q x : string) :
  (forall s y, At s y -> Substring y s) ->
  FirstCapture At q x -> Substring x q.
Proof.
  intros H (pre & s & -> & HA & _).
  destruct (H _ _ HA) as (a & b & ->). exists (pre ++ a), b.
  now rewrite append_assoc.
Qed.

(** A name extracted from a query text, for a pod or for a deployment, is
    never empty, consists of word characters, digits and hyphens only,
    and occurs in the query text. *)
Theorem extracted_name_is_a_token_of_the_query :
  forall q x,
    extract_pod_name q = Some x \/ extract_deployment_name q = Some x ->
    x <> "" /\ all_chars Re.name_char x = true /\ Substring x q.
Proof.
  intros q x [H|H].
  - split; [exact (extract_pod_name_nonempty _ H)|].
    apply extract_pod_name_some in H. split.
    + destruct H as (_ & _ & _ & (_ & _ & _ & _ & _ & _ & _ & _ & H & _) & _).
      exact H.
    + apply (first_capture_inside (At := PodNameAt)); [|exact H].
      intros s y (ws & k & rest & -> & _).
      exists ("named" ++ ws ++ k), rest. now rewrite !append_assoc.
  - split; [exact (extract_deployment_name_nonempty _ H)|].
    apply extract_deployment_name_some in H. split.
    + destruct H as (_ & _ & _ & (_ & _ & _ & _ & _ & _ & H & _) & _).
      exact H.
    + apply (first_capture_inside (At := DeploymentNameAt)); [|exact H].
      intros s y (ws & rest & -> & _).
      exists ("by" ++ ws), rest. now rewrite !append_assoc.
Qed.

Lemma extracted_name_is_a_token_of_the_query_witness :
  let q := "Which pod is spawned by my-deployment?" in
  extract_deployment_name q = Some "my-deployment"
  /\ "my-deployment" <> ""
  /\ all_chars Re.name_char "my-deployment" = true
  /\ Substring "my-deployment" q.
Proof.
  intros q. split; [reflexivity|].
  apply (@extracted_name_is_a_token_of_the_query q "my-deployment").
  right. reflexivity.
Defined.

(* ================================================================== *)
(** * The endpoint, beyond the missing query *)

Lemma process_query_pair (w : world) (query : json) :
  exists answer,
    process_query w query = (Ok answer, trace (process_query w query)).
Proof.
  destruct (process_query_returns w query) as (answer & A). exists answer.
  destruct (process_query w query) as [r t]. cbn in A. now subst.
Qed.

Lemma create_query_object (w : world) (req : request)
    (items : list (string * json)) :
  get_json req = Ok (JObj items) ->
  exists answer,
    outcome (process_query w (query_of items)) = Ok answer
    /\ create_query w req
       = (match QueryResponse w (query_of items) answer with
          | Ok r =>
              Ok (200%Z, JObj [("query", JStr (fst r));
                               ("answer", JStr (snd r))])
          | Raise (ValidationError errors _) =>
              Ok (400%Z, JObj [("error", errors)])
          | Raise _ =>
              Ok (500%Z, JObj [("error", JStr "An unexpected error occurred.")])
          end,
          trace (process_query w (query_of items))).
Proof.
  intros G. unfold create_query. rewrite G, bind_lift.
  assert (P : py_get (JObj items) "query" JNull = Ok (query_of items)).
  { unfold query_of. cbn [py_get]. now destruct (lookup "query" items). }
  rewrite P, bind_lift.
  destruct (process_query_pair w (query_of items)) as (answer & A).
  exists answer. split; [now rewrite A|]. rewrite A at 1. cbn [bind].
  rewrite bind_lift.
  destruct (QueryResponse w (query_of items) answer)
    as [r|[status text|errors text|cls text]]; cbn;
    now rewrite ?app_nil_r.
Qed.

(** A request whose body is an object with a text under "query" is always
    answered with status 200, the query echoed and the dispatcher's
    answer beside it, whatever the completion service and the cluster do:
    their failures travel inside the answer. The endpoint makes the calls
    of the dispatcher and no other. *)
Theorem text_query_is_answered_200 :
  forall w req items q,
    get_json req = Ok (JObj items) ->
    lookup "query" items = Some (JStr q) ->
    exists answer,
      outcome (process_query w (JStr q)) = Ok answer
      /\ outcome (create_query w req)
         = Ok (200%Z, JObj [("query", JStr q); ("answer", JStr answer)])
      /\ trace (create_query w req) = trace (process_query w (JStr q)).
Proof.
  intros w req items q G L.
  destruct (create_query_object w req G) as (answer & A & C).
  unfold query_of in A, C. rewrite L in A, C. exists answer.
  split; [exact A|]. rewrite C. split; reflexivity.
Qed.

Lemma text_query_is_answered_200_witness :
  let down := PyError "ConnectionError" "Max retries exceeded" in
  let w := Sample.world_of (Raise down) (Ok []) Sample.not_found in
  let items := [("query", JStr "How many nodes are there in the cluster?")] in
  let req := {| get_json := Ok (JObj items) |} in
  exists answer,
    outcome (process_query w
               (JStr "How many nodes are there in the cluster?"))
      = Ok answer
    /\ outcome (create_query w req)
       = Ok (200%Z,
             JObj [("query", JStr "How many nodes are there in the cluster?");
                   ("answer", JStr answer)])
    /\ trace (create_query w req)
       = trace (process_query w
                  (JStr "How many nodes are there in the cluster?")).
Proof.
  intros down w items req.
  apply (@text_query_is_answered_200 w req items
           "How many nodes are there in the cluster?");
    reflexivity.
Defined.

Lemma create_query_non_object (w : world) (req : request) (v : json) :
  get_json req = Ok v ->
  (forall items, v <> JObj items) ->
  create_query w req
  = (Ok (500%Z, JObj [("error", JStr "An unexpected error occurred.")]), []).
Proof.
  intros G N. unfold create_query. rewrite G, bind_lift.
  destruct v; try reflexivity. now elim (N items).
Qed.

(** The endpoint never raises and replies with status 200, 400 or 500.
    Status 500 is the reply exactly when the body cannot be read as a
    JSON object, and then nothing outside the process has been called: no
    failure of the completion service or of the cluster gives a 500. *)
Theorem create_query_status :
  forall w req,
    exists status body,
      outcome (create_query w req) = Ok (status, body)
      /\ (status = 200%Z \/ status = 400%Z \/ status = 500%Z)
      /\ (status = 500%Z <-> bad_body req)
      /\ (status = 500%Z -> trace (create_query w req) = []).
Proof.
  intros w req. destruct (get_json req) as [v|e] eqn:G.
  - assert (D : (exists items, v = JObj items) \/ forall items, v <> JObj items).
    { destruct v; try (right; discriminate). left. now eexists. }
    destruct D as [(items & ->)|N].
    + destruct (create_query_object w req G) as (answer & A & C).
      assert (NB : ~ bad_body req).
      { intros [(e & E & _)|(v & E & N)]; rewrite G in E; [discriminate|].
        inversion E. now elim (N items). }
      rewrite C. unfold QueryResponse.
      destruct (query_of items) eqn:Q;
        try destruct (pydantic_coerce w _);
        eexists; eexists; (split; [reflexivity|]);
        (split; [auto|]);
        (split; [split; [discriminate | intros B; now elim NB] | discriminate]).
    + rewrite (create_query_non_object w req G N).
      exists 500%Z. eexists. split; [reflexivity|]. split; [auto|].
      split; [|reflexivity]. split; [|reflexivity].
      intros _. right. now exists v.
  - assert (C : create_query w req
                = (match e with
                   | ValidationError errors _ =>
                       Ok (400%Z, JObj [("error", errors)])
                   | _ =>
                       Ok (500%Z,
                           JObj [("error", JStr "An unexpected error occurred.")])
                   end, [])).
    { unfold create_query. rewrite G, bind_lift. now destruct e. }
    rewrite C. destruct e as [status text|errors text|cls text].
    + exists 500%Z. eexists. split; [reflexivity|]. split; [auto|].
      split; [|reflexivity]. split; [|reflexivity].
      intros _. left. eexists. split; [exact G|]. discriminate.
    + exists 400%Z. eexists. split; [reflexivity|]. split; [auto|].
      split; [|discriminate]. split; [discriminate|].
      intros [(e & E & N)|(v & E & _)]; rewrite G in E; [|discriminate].
      inversion E. subst e. now elim (N errors text).
    + exists 500%Z. eexists. split; [reflexivity|]. split; [auto|].
      split; [|reflexivity]. split; [|reflexivity].
      intros _. left. eexists. split; [exact G|]. discriminate.
Qed.

(** A request whose body is an object without "query", or with a null
    under it, is refused with status 400 only after the dispatcher has
    run on [None]: the completion service has been asked to interpret the
    query "None". *)
Theorem invalid_query_is_classified_first :
  forall w req items,
    get_json req = Ok (JObj items) ->
    lookup "query" items = None \/ lookup "query" items = Some JNull ->
    outcome (create_query w req)
      = Ok (400%Z, JObj [("error", pydantic_errors w JNull)])
    /\ trace (create_query w req) = trace (process_query w JNull)
    /\ In (CompletionPost (structured_prompt w JNull))
         (trace (create_query w req))
    /\ Substring (dq ++ "None" ++ dq) (structured_prompt w JNull).
Proof.
  intros w req items G L.
  destruct (create_query_object w req G) as (answer & A & C).
  assert (Q : query_of items = JNull).
  { unfold query_of. now destruct L as [-> | ->]. }
  rewrite Q in A, C. rewrite C. cbn [outcome trace fst snd QueryResponse].
  split; [reflexivity|]. split; [reflexivity|]. split.
  - destruct (process_query_trace w JNull) as [T|(raw & _ & T)];
      rewrite T; now left.
  - apply contains_iff. reflexivity.
Qed.

Lemma invalid_query_is_classified_first_witness :
  let w := Sample.world_of (Ok (Sample.reply "count nodes"))
             (Ok []) Sample.not_found in
  let req := {| get_json := Ok (JObj [("query", JNull)]) |} in
  outcome (create_query w req) = Ok (400%Z, JObj [("error", JArr [])])
  /\ trace (create_query w req) = trace (process_query w JNull)
  /\ In (CompletionPost (structured_prompt w JNull))
       (trace (create_query w req))
  /\ Substring (dq ++ "None" ++ dq) (structured_prompt w JNull).
Proof.
  intros w req.
  apply (@invalid_query_is_classified_first w req [("query", JNull)]);
    [reflexivity | now right].
Defined.

(* ================================================================== *)
(** * A completion that quotes the prompt *)

Lemma substring_app_r (p a b : string) : Substring p a -> Substring p (a ++ b).
Proof.
  intros (x & y & ->). exists x, (y ++ b). now rewrite !append_assoc.
Qed.

(** The structured prompt itself contains the first canonical phrase (in
    its first example), for every query: a completion that repeats the
    prompt, or just its list of examples, is served as CountPods. *)
Theorem echoed_prompt_counts_pods :
  forall w query before after,
    resolveIntent (before ++ structured_prompt w query ++ after) = CountPods
    /\ dispatch w query (before ++ structured_prompt w query ++ after)
       = on_count_pods w.
Proof.
  intros w query before after.
  assert (P : Substring "count pods" (structured_prompt w query)).
  { replace (structured_prompt w query) with
      ((nl ++ "        You are a Kubernetes assistant. Given a user query, identify the Kubernetes action needed. Here are some examples:" ++ nl
        ++ "        " ++ nl
        ++ "        - " ++ dq ++ "How many pods are in the default namespace?" ++ dq ++ " -> count pods")
       ++ (nl
        ++ "        - " ++ dq ++ "List all pods in the default namespace." ++ dq ++ " -> list all pods" ++ nl
        ++ "        - " ++ dq ++ "What is the status of the pod named 'example-pod'?" ++ dq ++ " -> check pod status" ++ nl
        ++ "        - " ++ dq ++ "How many nodes are there in the cluster?" ++ dq ++ " -> count nodes" ++ nl
        ++ "        - " ++ dq ++ "Is the API server accessible?" ++ dq ++ " -> check API server" ++ nl
        ++ "        - " ++ dq ++ "Which pod is spawned by my-deployment?" ++ dq ++ " -> list pods for deployment" ++ nl
        ++ nl
        ++ "        Based on this, interpret the following query: " ++ dq ++ py_str w query ++ dq ++ nl
        ++ "        "))
      by reflexivity.
    apply substring_app_r, contains_iff. reflexivity. }
  assert (R : resolveIntent (before ++ structured_prompt w query ++ after)
              = CountPods).
  { apply resolveIntent_first. left.
    exists [], "count pods",
      [("list all pods", ListPods); ("check pod status", CheckPodStatus);
       ("count nodes", CountNodes); ("check API server", CheckApiServer);
       ("list pods for deployment", ListPodsForDeployment)].
    split; [reflexivity|]. split; [|intros e []].
    destruct (substring_app_r after P) as (x & y & E).
    exists (before ++ x), y. now rewrite E, append_assoc. }
  split; [exact R|]. now rewrite dispatch_serve, R.
Qed.

(* ================================================================== *)
(** * The failure policy of the dispatcher, branch by branch *)








(* ================================================================== *)
(** * A body without the query field *)

(** C9, as the code has it: a request whose decoded JSON body has no
    "query" field is answered with status 400 and the validation errors,
    never 500, when the body is an object, whatever the classifier and the
    cluster do; when the body is not an object (an array, a string, a
    number, null) it is answered with the generic status 500. *)
Theorem missing_query_field_status :
  forall w req v,
    get_json req = Ok v ->
    lacks_query_field v ->
    ((exists items, v = JObj items) ->
     outcome (create_query w req)
       = Ok (400%Z, JObj [("error", pydantic_errors w JNull)])
     /\ forall body, outcome (create_query w req) <> Ok (500%Z, body))
    /\ ((forall items, v <> JObj items) ->
        outcome (create_query w req)
          = Ok (500%Z, JObj [("error", JStr "An unexpected error occurred.")])).
Proof.
  intros w req v G L. split.
  - intros (items & ->).
    assert (Q : lookup "query" items = None).
    { destruct (lookup "query" items) as [value|] eqn:E; [|reflexivity].
      elim (L items value eq_refl E). }
    assert (O : outcome (create_query w req)
                = Ok (400%Z, JObj [("error", pydantic_errors w JNull)])).
    { unfold create_query. rewrite G, bind_lift. cbn [py_get]. rewrite Q.
      rewrite bind_lift.
      destruct (process_query_returns w JNull) as (answer & A).
      destruct (process_query w JNull) as [r t]. cbn in A. subst r.
      reflexivity. }
    split; [exact O|]. intros body. rewrite O. intros H. inversion H.
  - intros N. exact (non_object_body_is_server_error w req G N).
Qed.

Lemma missing_query_field_status_witness :
  let w := Sample.world_of (Ok (Sample.reply "count nodes"))
             (Ok []) Sample.not_found in
  let v := JObj [("question", JStr "How many nodes?")] in
  let req := {| get_json := Ok v |} in
  (get_json req = Ok v /\ lacks_query_field v)
  /\ ((exists items, v = JObj items) ->
      outcome (create_query w req) = Ok (400%Z, JObj [("error", JArr [])])
      /\ forall body, outcome (create_query w req) <> Ok (500%Z, body))
  /\ ((forall items, v <> JObj items) ->
      outcome (create_query w req)
        = Ok (500%Z, JObj [("error", JStr "An unexpected error occurred.")])).
Proof.
  intros w v req.
  assert (L : lacks_query_field v).
  { intros items value E H. inversion E. subst items. discriminate H. }
  split; [split; [reflexivity | exact L]|].
  exact (@missing_query_field_status w req v eq_refl L).
Defined.

(** C9 as stated fails: the body [1, 2] is JSON and has no "query"
    field, and the reply is the server error 500. *)
Lemma array_body_is_answered_500 :
  let w := Sample.world_of (Ok (Sample.reply "count nodes"))
             (Ok []) Sample.not_found in
  let req := {| get_json := Ok (JArr [JInt 1; JInt 2]) |} in
  get_json req = Ok (JArr [JInt 1; JInt 2])
  /\ lacks_query_field (JArr [JInt 1; JInt 2])
  /\ outcome (create_query w req)
     = Ok (500%Z, JObj [("error", JStr "An unexpected error occurred.")]).
Proof.
  intros w req. split; [reflexivity|]. split; [|reflexivity].
  intros items value E. discriminate E.
Qed.
